(** * roads_mexico_complete.py: a shallow embedding and its properties

    The script walks a fixed table of the 32 Mexican states; for each it
    resolves a boundary, fetches the drivable roads inside a buffered copy of
    it, clips them back to the true boundary, classifies every segment and
    renders three maps.  The geospatial and plotting libraries are external:
    their operations appear here as the variables of a section.  What the
    script itself computes (the classifier, the buffer choice, the islet
    reduction, the line filter, the width rescaling, the plot extent and the
    file names) is embedded definition by definition.

    Conventions.
    - A Python [str] is a list of Unicode code points ([pystr]); literals are
      written as UTF-8 text and decoded by [py].
    - A Python [float] is idealised as a real number: rounding is not
      modelled.  The one division of the script whose divisor can be zero is
      modelled with the IEEE-754 outcomes (NaN, infinities) it has in numpy.
    - Where rounding decides, the width computation is also given in
      binary64 itself ([Float64]), with numpy's [exp] as a parameter. *)

From Stdlib Require Import Reals Lra.
From Stdlib Require PrimFloat SpecFloat FloatOps FloatAxioms.
From stdpp Require Import gmap list.
From Stdlib Require Import String Ascii NArith.

Open Scope N_scope.

(** ** Python strings *)

Module PyStr.

(** A [str] is a sequence of code points. *)
Definition pystr := list N.

(** UTF-8 decoding of a byte sequence (1- to 4-byte forms); a truncated
    final sequence is dropped. *)
Fixpoint utf8_decode (bs : list N) : pystr :=
  match bs with
  | [] => []
  | b0 :: t0 =>
    if b0 <? 128 then b0 :: utf8_decode t0
    else
      match t0 with
      | [] => []
      | b1 :: t1 =>
        if b0 <? 224 then ((b0 - 192) * 64 + (b1 - 128)) :: utf8_decode t1
        else
          match t1 with
          | [] => []
          | b2 :: t2 =>
            if b0 <? 240
            then ((b0 - 224) * 4096 + (b1 - 128) * 64 + (b2 - 128))
                   :: utf8_decode t2
            else
              match t2 with
              | [] => []
              | b3 :: t3 =>
                ((b0 - 240) * 262144 + (b1 - 128) * 4096
                 + (b2 - 128) * 64 + (b3 - 128)) :: utf8_decode t3
              end
          end
      end
  end.

(** The [str] written by a source literal. *)
Definition py (s : string) : pystr :=
  utf8_decode (List.map N_of_ascii (list_ascii_of_string s)).

(** [a == b] on strings. *)
Definition eqb (a b : pystr) : bool := bool_decide (a = b).

(** [x in l] for a list of strings. *)
Definition mem (x : pystr) (l : list pystr) : bool :=
  existsb (eqb x) l.

(** [l.index(x)]: the position of the first element equal to [x];
    [None] stands for the [ValueError] raised when there is none. *)
Fixpoint index (x : pystr) (l : list pystr) : option nat :=
  match l with
  | [] => None
  | y :: t => if eqb y x then Some O else option_map S (index x t)
  end.

(** [s.startswith(p)]. *)
Fixpoint startswith (p s : pystr) : bool :=
  match p, s with
  | [], _ => true
  | _ :: _, [] => false
  | a :: p', b :: s' => (a =? b) && startswith p' s'
  end.

(** [p in s] for strings: [p] occurs in [s] as a substring. *)
Fixpoint contains (s p : pystr) : bool :=
  startswith p s ||
  match s with
  | [] => false
  | _ :: t => contains t p
  end.

(** [c.lower()] for one code point, on Basic Latin and the Latin-1
    Supplement: A-Z, and the capital letters U+00C0..U+00DE except the
    multiplication sign U+00D7, move up by 32; everything else in that
    range is its own lower case. *)
Definition lower_cp (c : N) : N :=
  if (65 <=? c) && (c <=? 90) then c + 32
  else if (192 <=? c) && (c <=? 222) && negb (c =? 215) then c + 32
  else c.

(** [s.lower()]. *)
Definition lower (s : pystr) : pystr := List.map lower_cp s.

(** [s.replace(old, new)]: the non-overlapping occurrences of [old], found
    left to right, are replaced by [new].  [skip] counts the code points of
    an occurrence still to be dropped. *)
Fixpoint replace_from (old new : pystr) (skip : nat) (s : pystr) : pystr :=
  match s with
  | [] => []
  | c :: t =>
    match skip with
    | S k => replace_from old new k t
    | O =>
      if startswith old s
      then new ++ replace_from old new (Nat.pred (List.length old)) t
      else c :: replace_from old new O t
    end
  end.

Definition replace (s old new : pystr) : pystr :=
  match old with
  | [] => new ++ flat_map (fun c => c :: new) s
  | _ :: _ => replace_from old new O s
  end.

End PyStr.
Import PyStr.

(** ** Road type hierarchy and classifier *)

(** The [highway] attribute of an edge: a string, or a list of strings. *)
Inductive hwy_tag : Type :=
| TagStr (s : pystr)
| TagList (l : list pystr).

Definition highway_order : list pystr :=
  [ py "motorway"; py "trunk"; py "primary"; py "secondary";
    py "tertiary"; py "unclassified"; py "residential"; py "service" ].

(** [get_hwy_code(hw)].  [None] is the [IndexError] of [hw[0]] on an empty
    list. *)
Definition get_hwy_code (hw : hwy_tag) : option nat :=
  hw0 ← match hw with
        | TagList l => head l
        | TagStr s => Some s
        end;
  if mem hw0 highway_order
  then index hw0 highway_order
  else Some (List.length highway_order).

(** ** State table and buffer constants *)

(** INEGI codes and state names, in table order. *)
Definition states : list (pystr * pystr) :=
  [ (py "01", py "Aguascalientes"); (py "02", py "Baja California");
    (py "03", py "Baja California Sur"); (py "04", py "Campeche");
    (py "05", py "Coahuila"); (py "06", py "Colima"); (py "07", py "Chiapas");
    (py "08", py "Chihuahua"); (py "09", py "Mexico City");
    (py "10", py "Durango"); (py "11", py "Guanajuato");
    (py "12", py "Guerrero"); (py "13", py "Hidalgo"); (py "14", py "Jalisco");
    (py "15", py "Estado de México"); (py "16", py "Michoacán");
    (py "17", py "Morelos"); (py "18", py "Nayarit");
    (py "19", py "Nuevo León"); (py "20", py "Oaxaca"); (py "21", py "Puebla");
    (py "22", py "Querétaro"); (py "23", py "Quintana Roo");
    (py "24", py "San Luis Potosí"); (py "25", py "Sinaloa");
    (py "26", py "Sonora"); (py "27", py "Tabasco"); (py "28", py "Tamaulipas");
    (py "29", py "Tlaxcala"); (py "30", py "Veracruz");
    (py "31", py "Yucatán"); (py "32", py "Zacatecas") ].

(** Default small buffer, in degrees. *)
Definition BUFFER_DEG : R := 0.02.
(** Large buffer of the problematic states. *)
Definition SPECIAL_BUFFER : R := 0.1.
Definition SPECIAL_STATES : gset pystr := {[ py "Jalisco"; py "Tabasco" ]}.

(** Step 3: [buf = SPECIAL_BUFFER if name in SPECIAL_STATES else BUFFER_DEG]. *)
Definition buf (name : pystr) : R :=
  if decide (name ∈ SPECIAL_STATES) then SPECIAL_BUFFER else BUFFER_DEG.

(** ** Floating-point values with the IEEE-754 special cases *)

Module NpFloat.

(** A float as numpy computes with it: a real number (rounding, overflow
    and the sign of zero are not modelled), an infinity, or NaN. *)
Inductive np_float : Type :=
| Finite (r : R)
| PosInf
| NegInf
| NaN.

Definition neg (x : np_float) : np_float :=
  match x with
  | Finite r => Finite (- r)
  | PosInf => NegInf
  | NegInf => PosInf
  | NaN => NaN
  end.

(** The infinity with the sign of [r]. *)
Definition inf_of_sign (r : R) : np_float :=
  if Rlt_dec 0 r then PosInf else NegInf.

Definition add (x y : np_float) : np_float :=
  match x, y with
  | NaN, _ | _, NaN => NaN
  | Finite a, Finite b => Finite (a + b)
  | PosInf, NegInf | NegInf, PosInf => NaN
  | PosInf, _ | _, PosInf => PosInf
  | NegInf, _ | _, NegInf => NegInf
  end.

Definition sub (x y : np_float) : np_float := add x (neg y).

Definition mul (x y : np_float) : np_float :=
  match x, y with
  | NaN, _ | _, NaN => NaN
  | Finite a, Finite b => Finite (a * b)
  | PosInf, Finite b | Finite b, PosInf =>
    if Req_dec_T b 0 then NaN else inf_of_sign b
  | NegInf, Finite b | Finite b, NegInf =>
    if Req_dec_T b 0 then NaN else inf_of_sign (- b)
  | PosInf, PosInf | NegInf, NegInf => PosInf
  | PosInf, NegInf | NegInf, PosInf => NegInf
  end.

(** Division does not raise: [0/0] is NaN and [x/0] is an infinity. *)
Definition div (x y : np_float) : np_float :=
  match x, y with
  | NaN, _ | _, NaN => NaN
  | Finite a, Finite b =>
    if Req_dec_T b 0
    then (if Req_dec_T a 0 then NaN else inf_of_sign a)
    else Finite (a / b)
  | Finite _, (PosInf | NegInf) => Finite 0
  | PosInf, Finite b => if Rlt_dec b 0 then NegInf else PosInf
  | NegInf, Finite b => if Rlt_dec b 0 then PosInf else NegInf
  | (PosInf | NegInf), (PosInf | NegInf) => NaN
  end.

(** [Series.min()] and [Series.max()] of a series of finite values; NaN
    on the empty series. *)
Definition series_min (s : list R) : np_float :=
  match s with
  | [] => NaN
  | x :: t => Finite (fold_left Rmin t x)
  end.

Definition series_max (s : list R) : np_float :=
  match s with
  | [] => NaN
  | x :: t => Finite (fold_left Rmax t x)
  end.

End NpFloat.
Import NpFloat.

(** ** Step 6: line widths *)

(** [raw_lw = 1 / np.exp(roads['dist'] / 1e6)], element by element. *)
Definition raw_lw (dist : list R) : list R :=
  List.map (fun d => (1 / exp (d / 1e6))%R) dist.

(** [roads['lw'] = 0.05 + (raw_lw - mn) / (mx - mn) * (0.9 - 0.05)] with
    [mn, mx = raw_lw.min(), raw_lw.max()]. *)
Definition lw (dist : list R) : list np_float :=
  let raw := raw_lw dist in
  let mn := series_min raw in
  let mx := series_max raw in
  List.map (fun r =>
         add (Finite 0.05)
             (mul (div (sub (Finite r) mn) (sub mx mn))
                  (sub (Finite 0.9) (Finite 0.05))))
      raw.

(** ** Step 7: plot extent *)

(** [extent = (x0 - dx, x1 + dx, y0 - dy, y1 + dy)] from the bounds
    [(x0, y0, x1, y1)]. *)
Definition extent (bounds : R * R * R * R) : R * R * R * R :=
  let '(x0, y0, x1, y1) := bounds in
  let dx := (0.05 * (x1 - x0))%R in
  let dy := (0.05 * (y1 - y0))%R in
  ((x0 - dx)%R, (x1 + dx)%R, (y0 - dy)%R, (y1 + dy)%R).

(** ** Safe file name *)

Definition safe (name : pystr) : pystr :=
  replace (replace (replace (replace (replace (replace (replace
    (lower name)
    (py " ") (py "_"))
    (py "á") (py "a")) (py "é") (py "e"))
    (py "í") (py "i")) (py "ó") (py "o"))
    (py "ú") (py "u")) (py "ñ") (py "n").

(** The safe name in the words of the specification: the name in lower
    case, every space turned into an underscore, and the accented letters
    á, é, í, ó, ú, ñ turned into a, e, i, o, u, n. *)
Definition underscore (c : N) : N := if c =? 32 then 95 else c.

Definition unaccent (c : N) : N :=
  if c =? 225 then 97            (* á *)
  else if c =? 233 then 101      (* é *)
  else if c =? 237 then 105      (* í *)
  else if c =? 243 then 111      (* ó *)
  else if c =? 250 then 117      (* ú *)
  else if c =? 241 then 110      (* ñ *)
  else c.

Definition safe_spec (name : pystr) : pystr :=
  List.map (fun c => unaccent (underscore (lower_cp c))) name.

(** ** Geometries *)

(** The geometry classes of shapely, and the name [geom_type] reports. *)
Inductive shape_kind : Type :=
| Point | LineString | LinearRing | Polygon
| MultiPoint | MultiLineString | MultiPolygon | GeometryCollection.

Definition geom_type_name (k : shape_kind) : pystr :=
  match k with
  | Point => py "Point"
  | LineString => py "LineString"
  | LinearRing => py "LinearRing"
  | Polygon => py "Polygon"
  | MultiPoint => py "MultiPoint"
  | MultiLineString => py "MultiLineString"
  | MultiPolygon => py "MultiPolygon"
  | GeometryCollection => py "GeometryCollection"
  end.

(** The geometry kinds that are lines. *)
Definition is_line_kind (k : shape_kind) : bool :=
  match k with
  | LineString | LinearRing | MultiLineString => true
  | _ => false
  end.

(** [max(xs, key=key)]: the first element whose key no later element
    exceeds; [None] is the [ValueError] on an empty sequence. *)
Definition py_max {A : Type} (key : A -> R) (xs : list A) : option A :=
  match xs with
  | [] => None
  | x :: t =>
    Some (fold_left (fun best y => if Rlt_dec (key best) (key y) then y else best)
                    t x)
  end.

(** How a figure sets its line widths: one width for all segments, or one
    per segment. *)
Inductive linewidth : Type :=
| Fixed (w : R)
| PerSegment (ws : list np_float).

Section Pipeline.

(** The geometry objects and the operations of shapely, geopandas and
    osmnx that the script calls. *)
Variable geom : Type.
Variable kind : geom -> shape_kind.
(** [g.geoms], the parts of a multi-part geometry. *)
Variable geoms : geom -> list geom.
Variable area : geom -> R.
Variable buffer : geom -> R -> geom.
(** Reprojection from EPSG:4326 to EPSG:3857. *)
Variable to_crs : geom -> geom.
Variable centroid : geom -> geom.
Variable distance : geom -> geom -> R.
Variable bounds : geom -> R * R * R * R.

(** A row of the edge table. *)
Record road : Type := { geometry : geom; highway : hwy_tag }.

(** [ox.geocode_to_gdf(query).geometry.iloc[0]]. *)
Variable geocode : pystr -> geom.
(** [ox.graph_to_gdfs(ox.graph_from_polygon(poly, network_type="drive",
    simplify=True), nodes=False, edges=True).to_crs(epsg=3857)]. *)
Variable fetch_roads : geom -> list road.
(** [gpd.clip(roads, mask)]. *)
Variable clip : list road -> geom -> list road.

Definition largest_polygon (g : geom) : option geom :=
  match kind g with
  | MultiPolygon => py_max area (geoms g)
  | _ => Some g
  end.

(** Step 2: the boundary with the islets of Colima dropped. *)
Definition clean_geom (name : pystr) (raw_geom : geom) : option geom :=
  if eqb name (py "Colima") then largest_polygon raw_geom else Some raw_geom.

(** [roads[roads.geom_type.str.contains("Line")]]. *)
Definition keep_lines (roads : list road) : list road :=
  List.filter
    (fun r => contains (geom_type_name (kind (geometry r))) (py "Line"))
    roads.

(** One figure as it is saved. *)
Record figure : Type := {
  fig_path : pystr;
  fig_facecolor : pystr;
  fig_roads : list road;
  (** the column the roads are coloured by, or [None] for plain black *)
  fig_column : option (list nat);
  fig_linewidth : linewidth;
  fig_outline : geom;
  fig_outline_color : pystr;
  fig_legend : bool;
  fig_xlim : R * R;
  fig_ylim : R * R
}.

(** The values of the loop body's variables at the end of one iteration. *)
Record iteration : Type := {
  it_raw_geom : geom;
  it_clean_geom : geom;
  it_buf : R;
  it_fetch_geom : geom;
  it_boundary_proj : geom;
  it_roads : list road;
  it_hwy_code : list nat;
  it_center : geom;
  it_dist : list R;
  it_lw : list np_float;
  it_extent : R * R * R * R;
  it_safe : pystr;
  it_figures : list figure
}.

(** The body of the loop over [states].  [None] is an uncaught exception of
    the script's own steps (the islet reduction and the classifier), which
    is raised before the first figure of the state is saved.  Failures
    inside the libraries, such as axis limits that are not numbers for an
    empty boundary, are outside this model. *)
Definition process_state (code name : pystr) : option iteration :=
  let raw_geom := geocode (name ++ py ", Mexico") in
  clean ← clean_geom name raw_geom;
  let b := buf name in
  let fetch_geom := buffer clean b in
  let fetched := fetch_roads fetch_geom in
  let boundary_proj := to_crs clean in
  let clipped := clip fetched boundary_proj in
  let roads := keep_lines clipped in
  hwy_code ← mapM (fun r => get_hwy_code (highway r)) roads;
  let center := centroid boundary_proj in
  let dist := List.map (fun r => distance (geometry r) center) roads in
  let widths := lw dist in
  let '(e0, e1, e2, e3) := extent (bounds boundary_proj) in
  let safe_name := safe name in
  let fig path face column width outline_color legend :=
      {| fig_path := path; fig_facecolor := face; fig_roads := roads;
         fig_column := column; fig_linewidth := width;
         fig_outline := boundary_proj; fig_outline_color := outline_color;
         fig_legend := legend;
         fig_xlim := (e0, e1); fig_ylim := (e2, e3) |} in
  Some {|
    it_raw_geom := raw_geom;
    it_clean_geom := clean;
    it_buf := b;
    it_fetch_geom := fetch_geom;
    it_boundary_proj := boundary_proj;
    it_roads := roads;
    it_hwy_code := hwy_code;
    it_center := center;
    it_dist := dist;
    it_lw := widths;
    it_extent := (e0, e1, e2, e3);
    it_safe := safe_name;
    it_figures :=
      [ fig (py "output/basic_" ++ code ++ py "_" ++ safe_name ++ py ".png")
            (py "white") None (Fixed 0.05) (py "black") false;
        fig (py "output/typemap_" ++ code ++ py "_" ++ safe_name ++ py ".png")
            (py "#090909") (Some hwy_code) (Fixed 0.05) (py "white") true;
        fig (py "output/distmap_" ++ code ++ py "_" ++ safe_name ++ py ".png")
            (py "#090909") (Some hwy_code) (PerSegment widths) (py "white")
            false ]
  |}.

(** The loop: the figures saved, in order, and whether every state was
    processed ([false]: an exception ended the run). *)
Fixpoint run (sts : list (pystr * pystr)) : list figure * bool :=
  match sts with
  | [] => ([], true)
  | (code, name) :: rest =>
    match process_state code name with
    | None => ([], false)
    | Some it =>
      let '(saved, completed) := run rest in
      (it_figures it ++ saved, completed)
    end
  end.

Definition main : list figure * bool := run states.

End Pipeline.

Arguments geometry {geom} _.
Arguments highway {geom} _.
Arguments fig_path {geom} _.
Arguments fig_facecolor {geom} _.
Arguments fig_roads {geom} _.
Arguments fig_column {geom} _.
Arguments fig_linewidth {geom} _.
Arguments fig_outline {geom} _.
Arguments fig_outline_color {geom} _.
Arguments fig_legend {geom} _.
Arguments fig_xlim {geom} _.
Arguments fig_ylim {geom} _.
Arguments it_raw_geom {geom} _.
Arguments it_clean_geom {geom} _.
Arguments it_buf {geom} _.
Arguments it_fetch_geom {geom} _.
Arguments it_boundary_proj {geom} _.
Arguments it_roads {geom} _.
Arguments it_hwy_code {geom} _.
Arguments it_center {geom} _.
Arguments it_dist {geom} _.
Arguments it_lw {geom} _.
Arguments it_extent {geom} _.
Arguments it_safe {geom} _.
Arguments it_figures {geom} _.


(** ** A synthetic world

    Geometries are axis-parallel boxes; a multi-part geometry carries its
    parts.  The services answer fixed data: the boundary of every state is a
    mainland with a small islet, and three edges are fetched, one of which
    clipping has degraded to a point. *)

Module Fixture.

(** A box of a kind, with the rectangles of its parts when it has several. *)
Inductive box : Type :=
| Box (k : shape_kind) (x0 y0 x1 y1 : R) (parts : list (R * R * R * R)).

Definition kind (b : box) : shape_kind := let 'Box k _ _ _ _ _ := b in k.
Definition geoms (b : box) : list box :=
  let 'Box _ _ _ _ _ ps := b in
  List.map (fun '(x0, y0, x1, y1) => Box Polygon x0 y0 x1 y1 []) ps.
Definition bounds (b : box) : R * R * R * R :=
  let 'Box _ x0 y0 x1 y1 _ := b in (x0, y0, x1, y1).
Definition area (b : box) : R :=
  let 'Box _ x0 y0 x1 y1 _ := b in ((x1 - x0) * (y1 - y0))%R.
Definition buffer (b : box) (r : R) : box :=
  let 'Box k x0 y0 x1 y1 ps := b in
  Box k (x0 - r) (y0 - r) (x1 + r) (y1 + r) ps.
Definition to_crs (b : box) : box := b.
Definition centroid (b : box) : box :=
  let 'Box _ x0 y0 x1 y1 _ := b in
  Box Point ((x0 + x1) / 2) ((y0 + y1) / 2) ((x0 + x1) / 2) ((y0 + y1) / 2) [].
(** Horizontal distance between the lower-left corners. *)
Definition distance (a c : box) : R :=
  let 'Box _ ax _ _ _ _ := a in
  let 'Box _ cx _ _ _ _ := c in Rabs (ax - cx).

Definition islet : box := Box Polygon 0 0 1 1 [].
Definition mainland : box := Box Polygon 2 0 12 10 [].
Definition reef : box := Box Polygon 13 0 14 2 [].
Definition raw_boundary : box :=
  Box MultiPolygon 0 0 14 10
      [ (0, 0, 1, 1); (2, 0, 12, 10); (13, 0, 14, 2) ]%R.

Definition geocode (query : pystr) : box := raw_boundary.

Definition edges : list (road box) :=
  [ {| geometry := Box LineString 7 5 8 5 [];
       highway := TagStr (py "primary") |};
    {| geometry := Box Point 12 3 12 3 [];
       highway := TagStr (py "service") |};
    {| geometry := Box MultiLineString 10 1 11 2 [];
       highway := TagList [py "residential"; py "service"] |};
    {| geometry := Box LineString 4 4 4 6 [];
       highway := TagStr (py "footway") |} ].

Definition fetch_roads (poly : box) : list (road box) := edges.
Definition clip (roads : list (road box)) (mask : box) : list (road box) :=
  roads.

(** The loop body in this world. *)
Definition process_state : pystr -> pystr -> option (iteration box) :=
  process_state box kind geoms area buffer to_crs centroid distance bounds
                geocode fetch_roads clip.

End Fixture.

(** ** Colormap and legend *)

(** [cmap = plt.cm.get_cmap('inferno_r', len(highway_order)+1)]: the number
    of discrete colours of the map; [cmap(i)] picks the colour of step [i]. *)
Definition cmap_steps : nat := List.length highway_order + 1.

(** A legend patch: the colormap step of its colour, and its label. *)
Record patch : Type := { patch_color : nat; patch_label : pystr }.

(** The legend of the type map: one patch per entry of the hierarchy,
    [Patch(color=cmap(i), label=highway_order[i])] for [i] in
    [range(len(highway_order))], then the patch of the other roads. *)
Definition legend_patches : list patch :=
  List.map (fun i => {| patch_color := i;
                        patch_label := nth i highway_order [] |})
           (seq 0 (List.length highway_order))
  ++ [ {| patch_color := List.length highway_order;
          patch_label := py "other" |} ].

(** The code points a-z and the underscore. *)
Definition is_plain (c : N) : bool :=
  ((97 <=? c) && (c <=? 122)) || (c =? 95).

(** ** A world whose boundary service answers an empty multi-polygon *)

Module EmptyBoundary.

Definition empty_boundary : Fixture.box :=
  Fixture.Box MultiPolygon 0 0 0 0 [].

Definition geocode (query : pystr) : Fixture.box := empty_boundary.

End EmptyBoundary.

(** ** Step 6 in binary64

    The same three lines on IEEE-754 doubles, with the operations of the
    processor.  [np.exp] is a function of numpy and is left open. *)

Module Float64.
Import PrimFloat.

Section Widths.

(** [np.exp] on one double. *)
Variable np_exp : float -> float.

(** [raw_lw = 1 / np.exp(roads['dist'] / 1e6)]. *)
Definition raw_lw (dist : list float) : list float :=
  List.map (fun d => (1 / np_exp (d / 1e6))%float) dist.

(** [Series.min()] and [Series.max()]: NaN entries are skipped, and the
    result is NaN when nothing is left. *)
Definition series_min (s : list float) : float :=
  match List.filter (fun x => negb (is_nan x)) s with
  | [] => nan
  | x :: t =>
    fold_left (fun best y => if (y <? best)%float then y else best) t x
  end.

Definition series_max (s : list float) : float :=
  match List.filter (fun x => negb (is_nan x)) s with
  | [] => nan
  | x :: t =>
    fold_left (fun best y => if (best <? y)%float then y else best) t x
  end.

(** [roads['lw'] = 0.05 + (raw_lw - mn) / (mx - mn) * (0.9 - 0.05)]. *)
#[warnings="-inexact-float"]
Definition lw (dist : list float) : list float :=
  let raw := raw_lw dist in
  let mn := series_min raw in
  let mx := series_max raw in
  List.map (fun r => (0.05 + (r - mn) / (mx - mn) * (0.9 - 0.05))%float) raw.

End Widths.


End Float64.

(** ** Proof automation *)

(** Reduce the projections of the iteration and figure records only. *)
Ltac project_fields :=
  cbn [it_raw_geom it_clean_geom it_buf it_fetch_geom it_boundary_proj
       it_roads it_hwy_code it_center it_dist it_lw it_extent it_safe
       it_figures fig_path fig_facecolor fig_roads fig_column fig_linewidth
       fig_outline fig_outline_color fig_legend fig_xlim fig_ylim
       List.map] in *.

(** * Properties *)

(** ** Strings and lists of strings *)

Lemma eqb_eq (a b : pystr) : eqb a b = true <-> a = b.
Proof. unfold eqb. apply bool_decide_eq_true. Qed.

Lemma eqb_neq (a b : pystr) : eqb a b = false <-> a <> b.
Proof. unfold eqb. apply bool_decide_eq_false. Qed.

Lemma mem_true (x : pystr) (l : list pystr) : mem x l = true <-> x ∈ l.
Proof.
  unfold mem. rewrite existsb_exists, list_elem_of_In. split.
  - intros (y & Hy & E). apply eqb_eq in E. now subst.
  - intros H. exists x. split; [assumption | now apply eqb_eq].
Qed.

Lemma mem_false (x : pystr) (l : list pystr) : mem x l = false <-> x ∉ l.
Proof.
  rewrite <- mem_true. destruct (mem x l); split; congruence.
Qed.

(** [index] returns the first position that holds the element. *)
Lemma index_Some (x : pystr) (l : list pystr) (i : nat) :
  index x l = Some i <->
  l !! i = Some x /\ forall j, (j < i)%nat -> l !! j <> Some x.
Proof.
  revert i. induction l as [|y t IH]; intros i; simpl.
  - split; [discriminate | intros [H _]; discriminate].
  - destruct (eqb y x) eqn:E.
    + apply eqb_eq in E. subst y. split.
      * intros [= <-]. split; [reflexivity | intros j Hj; lia].
      * intros [Hi Hfirst]. destruct i as [|i]; [reflexivity|].
        exfalso. apply (Hfirst O); [lia | reflexivity].
    + apply eqb_neq in E. destruct i as [|i]; simpl.
      * split.
        -- destruct (index x t); discriminate.
        -- intros [[= ->] _]. congruence.
      * specialize (IH i). destruct (index x t) as [k|]; simpl.
        -- split.
           ++ intros [= ->]. apply proj1 in IH. destruct (IH eq_refl) as [H1 H2].
              split; [assumption|]. intros [|j] Hj; simpl; [congruence|].
              apply H2. lia.
           ++ intros [H1 H2]. f_equal. apply proj2 in IH.
              assert (Some k = Some i) as [= ->]; [|reflexivity].
              apply IH. split; [assumption|]. intros j Hj.
              apply (H2 (S j)). lia.
        -- split; [discriminate|]. intros [H1 H2].
           apply proj2 in IH. exfalso.
           assert (None = Some i) by
               (apply IH; split; [assumption|];
                intros j Hj; apply (H2 (S j)); lia).
           discriminate.
Qed.

Lemma index_None (x : pystr) (l : list pystr) : index x l = None <-> x ∉ l.
Proof.
  induction l as [|y t IH]; simpl.
  - split; [intros _; apply not_elem_of_nil | reflexivity].
  - rewrite not_elem_of_cons. destruct (eqb y x) eqn:E.
    + apply eqb_eq in E. split; [discriminate | intros [H _]; congruence].
    + apply eqb_neq in E. destruct (index x t); simpl.
      * split; [discriminate|]. intros [_ H]. apply IH in H. discriminate.
      * split; [|reflexivity]. intros _. split; [congruence | now apply IH].
Qed.

Lemma index_lt (x : pystr) (l : list pystr) (i : nat) :
  index x l = Some i -> (i < List.length l)%nat.
Proof.
  intros H. apply index_Some in H as [H _]. now apply lookup_lt_Some in H.
Qed.

(** ** The classifier *)

Lemma highway_order_length : List.length highway_order = 8%nat.
Proof. reflexivity. Qed.

Lemma highway_order_NoDup : NoDup highway_order.
Proof. refine (bool_decide_unpack _ _). vm_compute. exact I. Qed.

(** On a string the classifier answers the position of the string in the
    hierarchy, or the length of the hierarchy. *)
Lemma get_hwy_code_str (s : pystr) :
  get_hwy_code (TagStr s) =
  Some (default (List.length highway_order) (index s highway_order)).
Proof.
  unfold get_hwy_code. generalize highway_order as order. intros order.
  cbn [mbind option_bind].
  destruct (mem s order) eqn:M.
  - apply mem_true in M. destruct (index s order) eqn:I; [reflexivity|].
    apply index_None in I. contradiction.
  - apply mem_false, index_None in M. now rewrite M.
Qed.

Lemma get_hwy_code_list (s : pystr) (rest : list pystr) :
  get_hwy_code (TagList (s :: rest)) = get_hwy_code (TagStr s).
Proof. reflexivity. Qed.

Lemma get_hwy_code_at (s : pystr) (i : nat) :
  highway_order !! i = Some s -> get_hwy_code (TagStr s) = Some i.
Proof.
  intros H. rewrite get_hwy_code_str.
  destruct (index s highway_order) as [k|] eqn:I; simpl.
  - apply index_Some in I as [Hk _]. f_equal.
    eapply NoDup_lookup; eauto using highway_order_NoDup.
  - apply index_None in I. exfalso. apply I.
    eapply list_elem_of_lookup_2; eauto.
Qed.

Lemma get_hwy_code_other (s : pystr) :
  s ∉ highway_order -> get_hwy_code (TagStr s) = Some 8%nat.
Proof.
  intros H. rewrite get_hwy_code_str. apply index_None in H.
  now rewrite H, highway_order_length.
Qed.

(** C2. Highway classification: the classifier takes the tag itself, or the
    first element of a list of tags, and answers its position in the fixed
    hierarchy of eight road types (motorway, trunk, primary, secondary,
    tertiary, unclassified, residential, service); every tag outside the
    hierarchy gets 8.  In particular "primary" gives 2, the list
    ["residential", "service"] gives 6 and "footway" gives 8. *)
Theorem highway_classification :
  highway_order =
    List.map py [ "motorway"; "trunk"; "primary"; "secondary"; "tertiary";
                  "unclassified"; "residential"; "service" ]%string /\
  (forall s rest,
      get_hwy_code (TagList (s :: rest)) = get_hwy_code (TagStr s)) /\
  (forall s i,
      highway_order !! i = Some s -> get_hwy_code (TagStr s) = Some i) /\
  (forall s, s ∉ highway_order -> get_hwy_code (TagStr s) = Some 8%nat) /\
  get_hwy_code (TagStr (py "primary")) = Some 2%nat /\
  get_hwy_code (TagList [py "residential"; py "service"]) = Some 6%nat /\
  get_hwy_code (TagStr (py "footway")) = Some 8%nat.
Proof.
  split; [reflexivity|].
  split; [exact get_hwy_code_list|].
  split; [exact get_hwy_code_at|].
  split; [exact get_hwy_code_other|].
  repeat split; vm_compute; reflexivity.
Qed.

(** C10. Range of the classifier: on every string, and on every non-empty
    list of strings, the classifier returns an integer between 0 and 8, and
    it returns 8 exactly when the tag (the first element of a list) is not
    one of the eight entries of the hierarchy; on the empty list taking the
    first element fails. *)
Theorem get_hwy_code_range :
  (forall s, exists n,
      get_hwy_code (TagStr s) = Some n /\ (n <= 8)%nat /\
      (n = 8%nat <-> s ∉ highway_order)) /\
  (forall s rest, exists n,
      get_hwy_code (TagList (s :: rest)) = Some n /\ (n <= 8)%nat /\
      (n = 8%nat <-> s ∉ highway_order)) /\
  get_hwy_code (TagList []) = None.
Proof.
  assert (forall s, exists n,
             get_hwy_code (TagStr s) = Some n /\ (n <= 8)%nat /\
             (n = 8%nat <-> s ∉ highway_order)) as Hstr.
  { intros s. rewrite get_hwy_code_str, highway_order_length.
    destruct (index s highway_order) as [k|] eqn:I.
    - exists k. split; [reflexivity|].
      pose proof (index_lt _ _ _ I) as Hk. rewrite highway_order_length in Hk.
      split; [lia|]. split; [lia|].
      intros Hs. apply index_None in Hs. congruence.
    - exists 8%nat. split; [reflexivity|]. split; [lia|].
      split; [|reflexivity]. intros _. now apply index_None. }
  split; [exact Hstr|]. split; [|reflexivity].
  intros s rest. rewrite get_hwy_code_list. apply Hstr.
Qed.

(** ** Minimum and maximum of a series *)

Lemma fold_Rmin_le (t : list R) (x : R) :
  (fold_left Rmin t x <= x)%R /\
  forall y, y ∈ t -> (fold_left Rmin t x <= y)%R.
Proof.
  revert x. induction t as [|z t IH]; intros x; simpl.
  - split; [lra | intros y Hy; inversion Hy].
  - destruct (IH (Rmin x z)) as [H1 H2].
    pose proof (Rmin_l x z). pose proof (Rmin_r x z).
    split; [lra|]. intros y Hy. apply elem_of_cons in Hy as [->|Hy].
    + lra.
    + now apply H2.
Qed.

Lemma fold_Rmin_in (t : list R) (x : R) : fold_left Rmin t x ∈ x :: t.
Proof.
  revert x. induction t as [|z t IH]; intros x; simpl.
  - apply list_elem_of_here.
  - specialize (IH (Rmin x z)). apply elem_of_cons in IH as [E|IH].
    + rewrite E. unfold Rmin. destruct (Rle_dec x z).
      * apply list_elem_of_here.
      * apply list_elem_of_further, list_elem_of_here.
    + now do 2 apply list_elem_of_further.
Qed.

Lemma fold_Rmax_ge (t : list R) (x : R) :
  (x <= fold_left Rmax t x)%R /\
  forall y, y ∈ t -> (y <= fold_left Rmax t x)%R.
Proof.
  revert x. induction t as [|z t IH]; intros x; simpl.
  - split; [lra | intros y Hy; inversion Hy].
  - destruct (IH (Rmax x z)) as [H1 H2].
    pose proof (Rmax_l x z). pose proof (Rmax_r x z).
    split; [lra|]. intros y Hy. apply elem_of_cons in Hy as [->|Hy].
    + lra.
    + now apply H2.
Qed.

Lemma fold_Rmax_in (t : list R) (x : R) : fold_left Rmax t x ∈ x :: t.
Proof.
  revert x. induction t as [|z t IH]; intros x; simpl.
  - apply list_elem_of_here.
  - specialize (IH (Rmax x z)). apply elem_of_cons in IH as [E|IH].
    + rewrite E. unfold Rmax. destruct (Rle_dec x z).
      * apply list_elem_of_further, list_elem_of_here.
      * apply list_elem_of_here.
    + now do 2 apply list_elem_of_further.
Qed.

(** The minimum of a non-empty series is one of its values and is below
    all of them; the maximum likewise. *)
Lemma series_min_spec (s : list R) :
  s <> [] ->
  exists m, series_min s = Finite m /\ m ∈ s /\
            forall y, y ∈ s -> (m <= y)%R.
Proof.
  destruct s as [|x t]; [congruence|]. intros _.
  exists (fold_left Rmin t x). split; [reflexivity|].
  split; [apply fold_Rmin_in|].
  destruct (fold_Rmin_le t x) as [H1 H2].
  intros y Hy. apply elem_of_cons in Hy as [->|Hy]; auto.
Qed.

Lemma series_max_spec (s : list R) :
  s <> [] ->
  exists m, series_max s = Finite m /\ m ∈ s /\
            forall y, y ∈ s -> (y <= m)%R.
Proof.
  destruct s as [|x t]; [congruence|]. intros _.
  exists (fold_left Rmax t x). split; [reflexivity|].
  split; [apply fold_Rmax_in|].
  destruct (fold_Rmax_ge t x) as [H1 H2].
  intros y Hy. apply elem_of_cons in Hy as [->|Hy]; auto.
Qed.

(** ** The raw width decays with the distance *)

Lemma raw_exp (d : R) : (1 / exp (d / 1e6) = exp (- d / 1e6))%R.
Proof.
  unfold Rdiv at 1. rewrite Rmult_1_l, <- exp_Ropp. f_equal. lra.
Qed.

Lemma raw_lt (d1 d2 : R) :
  (d1 < d2)%R -> (1 / exp (d2 / 1e6) < 1 / exp (d1 / 1e6))%R.
Proof.
  intros H. rewrite !raw_exp. apply exp_increasing. lra.
Qed.

Lemma raw_le (d1 d2 : R) :
  (d1 <= d2)%R -> (1 / exp (d2 / 1e6) <= 1 / exp (d1 / 1e6))%R.
Proof.
  intros [H| ->]; [left; now apply raw_lt | right; reflexivity].
Qed.

Lemma raw_le_inv (d1 d2 : R) :
  (1 / exp (d2 / 1e6) <= 1 / exp (d1 / 1e6))%R -> (d1 <= d2)%R.
Proof.
  intros H. destruct (Rle_lt_dec d1 d2) as [|Hlt]; [assumption|].
  apply raw_lt in Hlt. lra.
Qed.

Lemma elem_of_raw_lw (r : R) (dist : list R) :
  r ∈ raw_lw dist <-> exists d, d ∈ dist /\ r = (1 / exp (d / 1e6))%R.
Proof.
  unfold raw_lw. rewrite list_elem_of_In, in_map_iff. split.
  - intros (d & E & Hd). exists d. now rewrite list_elem_of_In.
  - intros (d & Hd & E). exists d. now rewrite <- list_elem_of_In.
Qed.

(** The extreme raw widths belong to the extreme distances: the smallest raw
    width to the farthest segment, the largest to the nearest. *)
Lemma raw_extrema (dist : list R) :
  dist <> [] ->
  exists dmin dmax,
    dmin ∈ dist /\ dmax ∈ dist /\
    (forall d, d ∈ dist -> (dmin <= d <= dmax)%R) /\
    series_min (raw_lw dist) = Finite (1 / exp (dmax / 1e6)) /\
    series_max (raw_lw dist) = Finite (1 / exp (dmin / 1e6)).
Proof.
  intros Hne.
  assert (raw_lw dist <> []) as Hraw.
  { destruct dist; [congruence | discriminate]. }
  destruct (series_min_spec _ Hraw) as (mn & Emn & Hmn & Lmn).
  destruct (series_max_spec _ Hraw) as (mx & Emx & Hmx & Lmx).
  apply elem_of_raw_lw in Hmn as (dmax & Hdmax & ->).
  apply elem_of_raw_lw in Hmx as (dmin & Hdmin & ->).
  exists dmin, dmax. repeat split; try assumption.
  - apply raw_le_inv, Lmx, elem_of_raw_lw. eauto.
  - apply raw_le_inv, Lmn, elem_of_raw_lw. eauto.
Qed.

(** The widths once the extrema of the raw widths are known. *)
Lemma lw_unfold (dist : list R) (mn mx : R) :
  series_min (raw_lw dist) = Finite mn ->
  series_max (raw_lw dist) = Finite mx ->
  lw dist =
  List.map (fun d =>
         add (Finite 0.05)
             (mul (div (Finite (1 / exp (d / 1e6) - mn)) (Finite (mx - mn)))
                  (Finite (0.9 - 0.05))))
      dist.
Proof.
  intros Emn Emx. unfold lw. rewrite Emn, Emx.
  unfold raw_lw. rewrite List.map_map. reflexivity.
Qed.

Lemma lw_distinct (dist : list R) (mn mx : R) :
  series_min (raw_lw dist) = Finite mn ->
  series_max (raw_lw dist) = Finite mx ->
  (mn < mx)%R ->
  lw dist =
  List.map (fun d =>
         Finite (0.05 + (exp (- d / 1e6) - mn) / (mx - mn) * (0.9 - 0.05)))
      dist.
Proof.
  intros Emn Emx Hlt. rewrite (lw_unfold _ _ _ Emn Emx).
  apply List.map_ext. intros d. unfold div.
  destruct (Req_dec_T (mx - mn) 0) as [E|_]; [lra|].
  simpl. now rewrite raw_exp.
Qed.

Lemma lw_identical (dist : list R) (m : R) :
  series_min (raw_lw dist) = Finite m ->
  series_max (raw_lw dist) = Finite m ->
  (forall d, d ∈ dist -> (1 / exp (d / 1e6))%R = m) ->
  lw dist = List.map (fun _ => NaN) dist.
Proof.
  intros Emn Emx Hall. rewrite (lw_unfold _ _ _ Emn Emx).
  apply List.map_ext_in. intros d Hd. apply list_elem_of_In in Hd.
  rewrite (Hall d Hd). unfold div.
  destruct (Req_dec_T (m - m) 0) as [_|N]; [|lra].
  destruct (Req_dec_T (m - m) 0) as [_|N]; [|lra].
  reflexivity.
Qed.

(** The rescaling is affine and increasing in the raw width. *)
Lemma rescale_bounds (r mn mx : R) :
  (mn < mx)%R -> (mn <= r <= mx)%R ->
  (0.05 <= 0.05 + (r - mn) / (mx - mn) * (0.9 - 0.05) <= 0.9)%R.
Proof.
  intros Hlt [H1 H2].
  assert (0 <= (r - mn) / (mx - mn))%R as P0.
  { apply Rle_mult_inv_pos; lra. }
  assert ((r - mn) / (mx - mn) <= 1)%R as P1.
  { apply (Rmult_le_reg_r (mx - mn)); [lra|].
    unfold Rdiv. rewrite Rmult_assoc, Rinv_l; lra. }
  split; nra.
Qed.







(** C6. Division by zero: when all the segments of a state are at the same
    distance from the centroid, the minimum and the maximum of the raw
    widths are equal, so the rescaling divides by [mx - mn = 0]; nothing
    guards the division and no segment gets a width: the quotient 0/0, and
    with it every value of the width column, is NaN. *)
Theorem zero_denominator_widths (dist : list R) (d0 : R) :
  dist <> [] ->
  (forall d, d ∈ dist -> d = d0) ->
  exists m : R,
    series_min (raw_lw dist) = Finite m /\
    series_max (raw_lw dist) = Finite m /\
    sub (series_max (raw_lw dist)) (series_min (raw_lw dist)) = Finite 0 /\
    (forall r, r ∈ raw_lw dist ->
       div (sub (Finite r) (series_min (raw_lw dist)))
           (sub (series_max (raw_lw dist)) (series_min (raw_lw dist))) = NaN) /\
    lw dist = List.map (fun _ => NaN) dist /\
    (forall i w, lw dist !! i = Some w -> w = NaN).
Proof.
  intros Hne Hall.
  destruct (raw_extrema dist Hne)
    as (dmin & dmax & Hdmin & Hdmax & _ & Emn & Emx).
  rewrite (Hall _ Hdmin) in Emx. rewrite (Hall _ Hdmax) in Emn.
  set (m := (1 / exp (d0 / 1e6))%R) in *.
  assert (forall d, d ∈ dist -> (1 / exp (d / 1e6))%R = m) as Hraw.
  { intros d Hd. now rewrite (Hall d Hd). }
  assert (lw dist = List.map (fun _ => NaN) dist) as Hlw.
  { now apply lw_identical with m. }
  exists m. split; [exact Emn|]. split; [exact Emx|].
  rewrite Emn, Emx. split; [|split; [|split]].
  - simpl. f_equal. lra.
  - intros r Hr. apply elem_of_raw_lw in Hr as (d & Hd & ->).
    rewrite (Hraw d Hd). simpl.
    destruct (Req_dec_T (m + - m) 0) as [_|N]; [|lra]. reflexivity.
  - exact Hlw.
  - intros i w. rewrite Hlw, list_lookup_fmap.
    destruct (dist !! i); simpl; congruence.
Qed.

Lemma zero_denominator_widths_witness :
  exists m : R,
    series_min (raw_lw [5; 5; 5]%R) = Finite m /\
    series_max (raw_lw [5; 5; 5]%R) = Finite m /\
    sub (series_max (raw_lw [5; 5; 5]%R)) (series_min (raw_lw [5; 5; 5]%R))
      = Finite 0 /\
    (forall r, r ∈ raw_lw [5; 5; 5]%R ->
       div (sub (Finite r) (series_min (raw_lw [5; 5; 5]%R)))
           (sub (series_max (raw_lw [5; 5; 5]%R))
                (series_min (raw_lw [5; 5; 5]%R))) = NaN) /\
    lw [5; 5; 5]%R = List.map (fun _ => NaN) [5; 5; 5]%R /\
    (forall i w, lw [5; 5; 5]%R !! i = Some w -> w = NaN).
Proof.
  apply (zero_denominator_widths [5; 5; 5]%R 5%R).
  - discriminate.
  - intros d Hd. repeat (apply elem_of_cons in Hd as [->|Hd]; [reflexivity|]).
    inversion Hd.
Defined.

(** ** Buffer selection *)

Lemma elem_of_SPECIAL_STATES (name : pystr) :
  name ∈ SPECIAL_STATES <-> name = py "Jalisco" \/ name = py "Tabasco".
Proof. unfold SPECIAL_STATES. set_solver. Qed.

Lemma buf_special (name : pystr) :
  name = py "Jalisco" \/ name = py "Tabasco" -> buf name = 0.1%R.
Proof.
  intros H. apply elem_of_SPECIAL_STATES in H. unfold buf.
  destruct (decide (name ∈ SPECIAL_STATES)); [reflexivity | contradiction].
Qed.

Lemma buf_default (name : pystr) :
  name <> py "Jalisco" -> name <> py "Tabasco" -> buf name = 0.02%R.
Proof.
  intros H1 H2. unfold buf.
  destruct (decide (name ∈ SPECIAL_STATES)) as [H|_]; [|reflexivity].
  apply elem_of_SPECIAL_STATES in H. tauto.
Qed.

(** C3. Buffer selection: the buffer distance used for the fetch is 0.1
    degrees when the state is Jalisco or Tabasco and 0.02 degrees for every
    other state; the two values differ, no other value is chosen, and in the
    table of 32 states the large buffer goes to the states 14 and 27 only. *)
Theorem buffer_selection :
  (forall name,
      name = py "Jalisco" \/ name = py "Tabasco" -> buf name = 0.1%R) /\
  (forall name,
      name <> py "Jalisco" -> name <> py "Tabasco" -> buf name = 0.02%R) /\
  (forall name, buf name = 0.1%R \/ buf name = 0.02%R) /\
  (0.1 <> 0.02)%R /\
  List.length states = 32%nat /\
  (forall code name,
      (code, name) ∈ states ->
      (buf name = 0.1%R <-> code = py "14" \/ code = py "27")).
Proof.
  split; [exact buf_special|]. split; [exact buf_default|].
  assert (0.1 <> 0.02)%R as Hne by lra.
  split; [|split; [exact Hne|split; [reflexivity|]]].
  - intros name.
    destruct (decide (name = py "Jalisco")) as [E1|N1];
      [left; apply buf_special; now left|].
    destruct (decide (name = py "Tabasco")) as [E2|N2];
      [left; apply buf_special; now right|].
    right. now apply buf_default.
  - intros code name Hin. unfold states in Hin.
    repeat (apply elem_of_cons in Hin as [[= -> ->]|Hin];
            [ first
                [ rewrite buf_special by (first [now left | now right]);
                  split; [intros _; first [now left | now right] | reflexivity]
                | rewrite buf_default by (vm_compute; discriminate);
                  split; [intros E; symmetry in E; contradiction
                         | intros [E|E]; vm_compute in E; discriminate] ]
            | ]).
    inversion Hin.
Qed.

(** ** Largest element by key *)

Lemma fold_best_spec {A : Type} (key : A -> R) (t : list A) (x : A) :
  let m := fold_left
             (fun best y => if Rlt_dec (key best) (key y) then y else best)
             t x in
  m ∈ x :: t /\ (key x <= key m)%R /\ forall y, y ∈ t -> (key y <= key m)%R.
Proof.
  revert x. induction t as [|z t IH]; intros x; simpl.
  - split; [apply list_elem_of_here|]. split; [lra|].
    intros y Hy. inversion Hy.
  - destruct (Rlt_dec (key x) (key z)) as [Hlt|Hge].
    + destruct (IH z) as (Hin & Hz & Hall).
      split; [now apply list_elem_of_further|]. split; [lra|].
      intros y Hy. apply elem_of_cons in Hy as [->|Hy]; auto.
    + destruct (IH x) as (Hin & Hx & Hall).
      split.
      { apply elem_of_cons in Hin as [->|Hin].
        - apply list_elem_of_here.
        - now do 2 apply list_elem_of_further. }
      split; [assumption|].
      intros y Hy. apply elem_of_cons in Hy as [->|Hy]; [lra | auto].
Qed.

Lemma py_max_spec {A : Type} (key : A -> R) (x : A) (t : list A) :
  exists m, py_max key (x :: t) = Some m /\ m ∈ x :: t /\
            forall y, y ∈ x :: t -> (key y <= key m)%R.
Proof.
  eexists. split; [reflexivity|].
  destruct (fold_best_spec key t x) as (Hin & Hx & Hall).
  split; [exact Hin|].
  intros y Hy. apply elem_of_cons in Hy as [->|Hy]; auto.
Qed.

Lemma py_max_empty {A : Type} (key : A -> R) : py_max key [] = None.
Proof. reflexivity. Qed.

(** ** The line filter *)

Lemma contains_Line (k : shape_kind) :
  contains (geom_type_name k) (py "Line") = is_line_kind k.
Proof. destruct k; vm_compute; reflexivity. Qed.

(** ** The safe name *)

Lemma replace_from_single (a b : N) (s : pystr) :
  replace_from [a] [b] O s = List.map (fun c => if c =? a then b else c) s.
Proof.
  induction s as [|c t IH]; [reflexivity|].
  cbn [replace_from startswith List.map].
  rewrite (N.eqb_sym a c). destruct (c =? a); simpl.
  - destruct t; simpl; f_equal; exact IH.
  - f_equal. exact IH.
Qed.

Lemma replace_single (a b : N) (s : pystr) :
  replace s [a] [b] = List.map (fun c => if c =? a then b else c) s.
Proof. unfold replace. apply replace_from_single. Qed.

Lemma unaccent_underscore_chain (c : N) :
  (fun c => if c =? 241 then 110 else c)
    ((fun c => if c =? 250 then 117 else c)
       ((fun c => if c =? 243 then 111 else c)
          ((fun c => if c =? 237 then 105 else c)
             ((fun c => if c =? 233 then 101 else c)
                ((fun c => if c =? 225 then 97 else c)
                   ((fun c => if c =? 32 then 95 else c) c))))))
  = unaccent (underscore c).
Proof.
  unfold unaccent, underscore. cbv beta.
  destruct (N.eqb_spec c 32) as [->|_]; [reflexivity|]. cbv iota.
  destruct (N.eqb_spec c 225) as [->|_]; [reflexivity|]. cbv iota.
  destruct (N.eqb_spec c 233) as [->|_]; [reflexivity|]. cbv iota.
  destruct (N.eqb_spec c 237) as [->|_]; [reflexivity|]. cbv iota.
  destruct (N.eqb_spec c 243) as [->|_]; [reflexivity|]. cbv iota.
  destruct (N.eqb_spec c 250) as [->|_]; [reflexivity|]. cbv iota.
  destruct (N.eqb_spec c 241) as [->|_]; reflexivity.
Qed.

(** The chain of replacements is a letter-by-letter translation. *)
Lemma safe_refines (name : pystr) : safe name = safe_spec name.
Proof.
  unfold safe, safe_spec, lower.
  change (py " ") with [32]. change (py "_") with [95].
  change (py "á") with [225]. change (py "a") with [97].
  change (py "é") with [233]. change (py "e") with [101].
  change (py "í") with [237]. change (py "i") with [105].
  change (py "ó") with [243]. change (py "o") with [111].
  change (py "ú") with [250]. change (py "u") with [117].
  change (py "ñ") with [241]. change (py "n") with [110].
  rewrite !replace_single, !List.map_map.
  apply List.map_ext. intros c. apply unaccent_underscore_chain.
Qed.

(** ** The loop body *)

Section PipelineProperties.

Variable geom : Type.
Variable kind : geom -> shape_kind.
Variable geoms : geom -> list geom.
Variable area : geom -> R.
Variable buffer : geom -> R -> geom.
Variable to_crs : geom -> geom.
Variable centroid : geom -> geom.
Variable distance : geom -> geom -> R.
Variable bounds : geom -> R * R * R * R.
Variable geocode : pystr -> geom.
Variable fetch_roads : geom -> list (road geom).
Variable clip : list (road geom) -> geom -> list (road geom).

Local Abbreviation process_with buffer :=
  (process_state geom kind geoms area buffer to_crs centroid distance bounds
                 geocode fetch_roads clip).
Local Abbreviation process := (process_with buffer).
Local Abbreviation cleaned := (clean_geom geom kind geoms area).
Local Abbreviation lines := (keep_lines geom kind).

(** What one iteration leaves in each variable, read off the loop body. *)
Lemma process_state_inv (code name : pystr) (it : iteration geom) :
  process code name = Some it ->
  it_raw_geom it = geocode (name ++ py ", Mexico") /\
  cleaned name (it_raw_geom it) = Some (it_clean_geom it) /\
  it_buf it = buf name /\
  it_fetch_geom it = buffer (it_clean_geom it) (it_buf it) /\
  it_boundary_proj it = to_crs (it_clean_geom it) /\
  it_roads it =
    lines (clip (fetch_roads (it_fetch_geom it)) (it_boundary_proj it)) /\
  mapM (fun r => get_hwy_code (highway r)) (it_roads it)
    = Some (it_hwy_code it) /\
  it_center it = centroid (it_boundary_proj it) /\
  it_dist it =
    List.map (fun r => distance (geometry r) (it_center it)) (it_roads it) /\
  it_lw it = lw (it_dist it) /\
  it_extent it = extent (bounds (it_boundary_proj it)) /\
  it_safe it = safe name /\
  List.map fig_path (it_figures it) =
    [ py "output/basic_" ++ code ++ py "_" ++ it_safe it ++ py ".png";
      py "output/typemap_" ++ code ++ py "_" ++ it_safe it ++ py ".png";
      py "output/distmap_" ++ code ++ py "_" ++ it_safe it ++ py ".png" ] /\
  List.map fig_linewidth (it_figures it) =
    [ Fixed 0.05; Fixed 0.05; PerSegment (it_lw it) ] /\
  List.map fig_column (it_figures it) =
    [ None; Some (it_hwy_code it); Some (it_hwy_code it) ] /\
  forall fig, fig ∈ it_figures it ->
    fig_roads fig = it_roads it /\
    fig_outline fig = it_boundary_proj it /\
    (fig_xlim fig, fig_ylim fig) =
      (let '(e0, e1, e2, e3) := it_extent it in ((e0, e1), (e2, e3))).
Proof.
  unfold process_state.
  destruct (clean_geom _ _ _ _ name _) as [clean|] eqn:Ec; [|discriminate].
  cbn [mbind option_bind].
  destruct (mapM _ _) as [codes|] eqn:Em; [|discriminate].
  cbn [mbind option_bind].
  destruct (extent _) as [[[e0 e1] e2] e3] eqn:Ee.
  intros H. apply (inj Some) in H. subst it. project_fields.
  do 15 (split; [first [reflexivity | assumption | symmetry; assumption]|]).
  intros fig Hfig.
  repeat (apply elem_of_cons in Hfig as [->|Hfig];
          [project_fields; repeat split; reflexivity|]).
  inversion Hfig.
Qed.

(** An iteration fails only where the islet reduction or the classifier
    fails. *)
Lemma process_state_Some (code name : pystr) (clean : geom) :
  cleaned name (geocode (name ++ py ", Mexico")) = Some clean ->
  (forall r,
      r ∈ lines (clip (fetch_roads (buffer clean (buf name))) (to_crs clean)) ->
      highway r <> TagList []) ->
  exists it, process code name = Some it.
Proof.
  intros Ec Htags. unfold process_state. rewrite Ec. cbn [mbind option_bind].
  destruct (mapM _ _) as [codes|] eqn:Em.
  - cbn [mbind option_bind]. destruct (extent _) as [[[e0 e1] e2] e3].
    eexists. reflexivity.
  - exfalso. apply mapM_None in Em.
    apply Exists_exists in Em as (r & Hr & Hnone).
    apply (Htags r Hr).
    destruct (highway r) as [s|[|s l]]; [| reflexivity |].
    + rewrite get_hwy_code_str in Hnone. discriminate.
    + rewrite get_hwy_code_list, get_hwy_code_str in Hnone. discriminate.
Qed.

Lemma keep_lines_spec (roads : list (road geom)) (r : road geom) :
  r ∈ lines roads <-> r ∈ roads /\ is_line_kind (kind (geometry r)) = true.
Proof.
  unfold keep_lines. rewrite !list_elem_of_In, filter_In, contains_Line.
  reflexivity.
Qed.

Lemma clean_geom_other (name : pystr) (raw : geom) :
  name <> py "Colima" -> cleaned name raw = Some raw.
Proof.
  intros H. unfold clean_geom. apply eqb_neq in H. now rewrite H.
Qed.

Lemma clean_geom_Colima (raw : geom) :
  cleaned (py "Colima") raw =
  match kind raw with
  | MultiPolygon => py_max area (geoms raw)
  | _ => Some raw
  end.
Proof. reflexivity. Qed.

(** Two ways of buffering that fetch the same roads give the same
    iteration, the fetch polygon apart. *)
Lemma process_state_buffer (buffer' : geom -> R -> geom)
      (code name : pystr) (clean : geom) :
  cleaned name (geocode (name ++ py ", Mexico")) = Some clean ->
  fetch_roads (buffer' clean (buf name)) = fetch_roads (buffer clean (buf name)) ->
  match process_with buffer' code name, process code name with
  | Some it', Some it =>
    it_fetch_geom it' = buffer' clean (buf name) /\
    it_clean_geom it' = it_clean_geom it /\
    it_boundary_proj it' = it_boundary_proj it /\
    it_roads it' = it_roads it /\
    it_hwy_code it' = it_hwy_code it /\
    it_center it' = it_center it /\
    it_dist it' = it_dist it /\
    it_lw it' = it_lw it /\
    it_extent it' = it_extent it /\
    it_figures it' = it_figures it
  | None, None => True
  | _, _ => False
  end.
Proof.
  intros Ec Hsame. unfold process_state. rewrite Ec.
  cbn [mbind option_bind]. rewrite Hsame.
  destruct (mapM _ _) as [codes|]; [|exact I].
  cbn [mbind option_bind].
  destruct (extent _) as [[[e0 e1] e2] e3].
  project_fields. repeat split; reflexivity.
Qed.

(** C4. Islet reduction: when the state is Colima and the raw boundary is a
    multi-polygon, the boundary used downstream (the one that is projected
    for clipping, centroid and rendering) is one of its parts, and no part
    has a larger area; for every other state, multi-polygon or not, the raw
    boundary passes through unchanged. *)
Theorem islet_reduction (code name : pystr) (it : iteration geom) :
  process code name = Some it ->
  it_raw_geom it = geocode (name ++ py ", Mexico") /\
  it_boundary_proj it = to_crs (it_clean_geom it) /\
  (name = py "Colima" -> kind (it_raw_geom it) = MultiPolygon ->
   it_clean_geom it ∈ geoms (it_raw_geom it) /\
   forall q, q ∈ geoms (it_raw_geom it) ->
             (area q <= area (it_clean_geom it))%R) /\
  (name <> py "Colima" -> it_clean_geom it = it_raw_geom it).
Proof.
  intros H. apply process_state_inv in H.
  destruct H as (Hraw & Hclean & _ & _ & Hproj & _).
  split; [exact Hraw|]. split; [exact Hproj|]. split.
  - intros -> Hk. rewrite clean_geom_Colima, Hk in Hclean.
    destruct (geoms (it_raw_geom it)) as [|p rest]; [discriminate|].
    destruct (py_max_spec area p rest) as (m & Em & Hin & Hmax).
    rewrite Em in Hclean. injection Hclean as <-. split; assumption.
  - intros Hn. rewrite clean_geom_other in Hclean by assumption.
    now injection Hclean.
Qed.

(** C5. Post-clip line invariant: after clipping against the true boundary
    and filtering, the working road set holds exactly the clipped rows whose
    geometry type is a line variant (LineString, LinearRing or
    MultiLineString, the types whose name contains "Line"); no point and no
    other geometry survives, and these are the roads every figure draws. *)
Theorem post_clip_lines (code name : pystr) (it : iteration geom) :
  process code name = Some it ->
  (forall r,
      r ∈ it_roads it <->
      r ∈ clip (fetch_roads (it_fetch_geom it)) (it_boundary_proj it) /\
      kind (geometry r) ∈ [LineString; LinearRing; MultiLineString]) /\
  (forall r,
      r ∈ it_roads it ->
      contains (geom_type_name (kind (geometry r))) (py "Line") = true /\
      kind (geometry r) <> Point /\ kind (geometry r) <> MultiPoint /\
      kind (geometry r) <> Polygon /\ kind (geometry r) <> MultiPolygon /\
      kind (geometry r) <> GeometryCollection) /\
  (forall fig, fig ∈ it_figures it -> fig_roads fig = it_roads it).
Proof.
  intros H. apply process_state_inv in H.
  destruct H as (_ & _ & _ & _ & _ & Hroads & _ & _ & _ & _ & _ & _ & _ & _
                 & _ & Hfig).
  assert (forall k, is_line_kind k = true <->
                    k ∈ [LineString; LinearRing; MultiLineString]) as Hk.
  { intros k. rewrite !elem_of_cons, elem_of_nil.
    destruct k; simpl; split; intros; try discriminate; intuition congruence. }
  split; [|split].
  - intros r. rewrite Hroads, keep_lines_spec, Hk. reflexivity.
  - intros r Hr. rewrite Hroads in Hr. apply keep_lines_spec in Hr as [_ Hl].
    rewrite contains_Line. split; [assumption|].
    destruct (kind (geometry r)); try discriminate;
      repeat split; discriminate.
  - intros fig Hin. now apply Hfig.
Qed.

(** C8. Buffer scope: the buffered geometry is the argument of the road
    fetch and nothing else.  The clip mask, the centroid the distances are
    measured from, the plot extent and the outline of every figure come from
    the projection of the unbuffered (for Colima, islet-reduced) boundary;
    so any other way of buffering that fetches the same roads leaves the
    boundary, the roads, their classes, distances and widths, the extent and
    the three figures unchanged. *)
Theorem buffer_scope (code name : pystr) (it : iteration geom) :
  process code name = Some it ->
  clean_geom geom kind geoms area name (it_raw_geom it)
    = Some (it_clean_geom it) /\
  it_fetch_geom it = buffer (it_clean_geom it) (buf name) /\
  it_boundary_proj it = to_crs (it_clean_geom it) /\
  it_roads it =
    keep_lines geom kind
      (clip (fetch_roads (it_fetch_geom it)) (it_boundary_proj it)) /\
  it_center it = centroid (it_boundary_proj it) /\
  it_dist it =
    List.map (fun r => distance (geometry r) (it_center it)) (it_roads it) /\
  it_extent it = extent (bounds (it_boundary_proj it)) /\
  (forall fig, fig ∈ it_figures it ->
     fig_outline fig = it_boundary_proj it /\
     (fig_xlim fig, fig_ylim fig) =
       (let '(e0, e1, e2, e3) := it_extent it in ((e0, e1), (e2, e3)))) /\
  (forall buffer' : geom -> R -> geom,
     fetch_roads (buffer' (it_clean_geom it) (buf name))
       = fetch_roads (it_fetch_geom it) ->
     exists it',
       process_with buffer' code name = Some it' /\
       it_fetch_geom it' = buffer' (it_clean_geom it) (buf name) /\
       it_clean_geom it' = it_clean_geom it /\
       it_boundary_proj it' = it_boundary_proj it /\
       it_roads it' = it_roads it /\
       it_hwy_code it' = it_hwy_code it /\
       it_center it' = it_center it /\
       it_dist it' = it_dist it /\
       it_lw it' = it_lw it /\
       it_extent it' = it_extent it /\
       it_figures it' = it_figures it).
Proof.
  intros H. pose proof (process_state_inv _ _ _ H) as Hinv.
  destruct Hinv as (Hraw & Hclean & Hbuf & Hfetch & Hproj & Hroads & _ & Hcen
                    & Hdist & _ & Hext & _ & _ & _ & _ & Hfig).
  rewrite Hbuf in Hfetch.
  repeat (split; [assumption|]).
  split.
  { intros fig Hin. destruct (Hfig fig Hin) as (_ & Ho & Hl). now split. }
  intros buffer' Hsame. rewrite Hfetch in Hsame. rewrite Hraw in Hclean.
  pose proof (process_state_buffer buffer' code name _ Hclean Hsame) as Hb.
  rewrite H in Hb.
  destruct (process_with buffer' code name) as [it'|]; [|contradiction].
  exists it'. split; [reflexivity | exact Hb].
Qed.

(** C9. Plot extent: each of the three figures of a state has for view
    limits the bounding box (x0, y0, x1, y1) of the projected boundary
    widened on every side by 5% of the matching dimension: x from
    x0 - 0.05*(x1-x0) to x1 + 0.05*(x1-x0), y from y0 - 0.05*(y1-y0) to
    y1 + 0.05*(y1-y0). *)
Theorem plot_extent (code name : pystr) (it : iteration geom) :
  process code name = Some it ->
  List.length (it_figures it) = 3%nat /\
  forall fig, fig ∈ it_figures it ->
    let '(x0, y0, x1, y1) := bounds (it_boundary_proj it) in
    fig_xlim fig = (x0 - 0.05 * (x1 - x0), x1 + 0.05 * (x1 - x0))%R /\
    fig_ylim fig = (y0 - 0.05 * (y1 - y0), y1 + 0.05 * (y1 - y0))%R.
Proof.
  intros H. apply process_state_inv in H.
  destruct H as (_ & _ & _ & _ & _ & _ & _ & _ & _ & _ & Hext & _ & Hp & _ & _
                 & Hfig).
  split.
  { rewrite <- (List.length_map fig_path), Hp. reflexivity. }
  intros fig Hin. destruct (Hfig fig Hin) as (_ & _ & Hlim).
  rewrite Hext in Hlim. unfold extent in Hlim.
  destruct (bounds (it_boundary_proj it)) as [[[x0 y0] x1] y1].
  injection Hlim as -> ->. split; reflexivity.
Qed.

(** The run: its saved files are those of the iterations, in table order. *)
Lemma run_paths (sts : list (pystr * pystr)) :
  (run geom kind geoms area buffer to_crs centroid distance bounds geocode
       fetch_roads clip sts).2 = true ->
  List.map fig_path
    (run geom kind geoms area buffer to_crs centroid distance bounds geocode
         fetch_roads clip sts).1 =
  flat_map (fun '(code, name) =>
              [ py "output/basic_" ++ code ++ py "_" ++ safe name ++ py ".png";
                py "output/typemap_" ++ code ++ py "_" ++ safe name
                   ++ py ".png";
                py "output/distmap_" ++ code ++ py "_" ++ safe name
                   ++ py ".png" ]) sts.
Proof.
  induction sts as [|[code name] rest IH]; [reflexivity|].
  cbn [run flat_map].
  destruct (process_state _ _ _ _ _ _ _ _ _ _ _ _ code name) as [it|] eqn:E;
    [|discriminate].
  destruct (run _ _ _ _ _ _ _ _ _ _ _ _ rest) as [saved completed].
  cbn [fst snd] in *. intros ->.
  rewrite List.map_app, IH by reflexivity.
  apply process_state_inv in E.
  destruct E as (_ & _ & _ & _ & _ & _ & _ & _ & _ & _ & _ & Es & Ep & _).
  rewrite Ep, Es. reflexivity.
Qed.

Lemma run_completes (sts : list (pystr * pystr)) :
  (forall code name, (code, name) ∈ sts ->
                     exists it, process code name = Some it) ->
  (run geom kind geoms area buffer to_crs centroid distance bounds geocode
       fetch_roads clip sts).2 = true.
Proof.
  induction sts as [|[code name] rest IH]; intros H; [reflexivity|].
  cbn [run].
  destruct (H code name) as [it ->]; [apply list_elem_of_here|].
  specialize (IH (fun c n Hin => H c n (list_elem_of_further _ _ _ Hin))).
  destruct (run _ _ _ _ _ _ _ _ _ _ _ _ rest) as [saved completed].
  exact IH.
Qed.

(** C7. Output naming: every state that is processed saves exactly three
    files, basic_{code}_{safe}.png, typemap_{code}_{safe}.png and
    distmap_{code}_{safe}.png, in the output directory; a completed run
    saves these for the 32 states of the table and nothing else, 96 files
    with distinct names.  The safe name is the state name in lower case with
    spaces turned into underscores and á, é, í, ó, ú, ñ turned into
    a, e, i, o, u, n: "México" gives "mexico", "Nuevo León" gives
    "nuevo_leon" and "San Luis Potosí" gives "san_luis_potosi". *)
Theorem output_naming :
  let files code name :=
      [ py "output/" ++ py "basic_" ++ code ++ py "_" ++ safe name ++ py ".png";
        py "output/" ++ py "typemap_" ++ code ++ py "_" ++ safe name
           ++ py ".png";
        py "output/" ++ py "distmap_" ++ code ++ py "_" ++ safe name
           ++ py ".png" ] in
  let all_files := flat_map (fun '(code, name) => files code name) states in
  (forall name, safe name = safe_spec name) /\
  safe (py "México") = py "mexico" /\
  safe (py "Nuevo León") = py "nuevo_leon" /\
  safe (py "San Luis Potosí") = py "san_luis_potosi" /\
  (forall code name it,
      process code name = Some it ->
      List.map fig_path (it_figures it) = files code name) /\
  ((main geom kind geoms area buffer to_crs centroid distance bounds geocode
         fetch_roads clip).2 = true ->
   List.map fig_path
     (main geom kind geoms area buffer to_crs centroid distance bounds geocode
           fetch_roads clip).1 = all_files) /\
  List.length states = 32%nat /\
  List.length all_files = 96%nat /\
  NoDup all_files.
Proof.
  cbv zeta.
  split; [exact safe_refines|].
  do 3 (split; [vm_compute; reflexivity|]).
  split.
  { intros code name it H. apply process_state_inv in H.
    destruct H as (_ & _ & _ & _ & _ & _ & _ & _ & _ & _ & _ & Es & Ep & _).
    rewrite Ep, Es. reflexivity. }
  split.
  { intros H. unfold main in *. rewrite (run_paths _ H). reflexivity. }
  split; [reflexivity|].
  split; [vm_compute; reflexivity|].
  refine (bool_decide_unpack _ _). vm_compute. exact I.
Qed.

End PipelineProperties.

(** ** The synthetic world at work *)

(** Of the four fetched edges the point is dropped and the three lines are
    kept. *)
Lemma fixture_keep_lines :
  keep_lines Fixture.box Fixture.kind Fixture.edges =
  [ {| geometry := Fixture.Box LineString 7 5 8 5 [];
       highway := TagStr (py "primary") |};
    {| geometry := Fixture.Box MultiLineString 10 1 11 2 [];
       highway := TagList [py "residential"; py "service"] |};
    {| geometry := Fixture.Box LineString 4 4 4 6 [];
       highway := TagStr (py "footway") |} ].
Proof. reflexivity. Qed.

(** For Colima the mainland, the part of largest area, is kept. *)
Lemma fixture_Colima :
  clean_geom Fixture.box Fixture.kind Fixture.geoms Fixture.area
             (py "Colima") Fixture.raw_boundary
  = Some Fixture.mainland.
Proof.
  rewrite clean_geom_Colima.
  unfold py_max, Fixture.raw_boundary, Fixture.kind, Fixture.geoms.
  cbn [List.map fold_left].
  cbn [Fixture.area].
  destruct (Rlt_dec ((1 - 0) * (1 - 0)) ((12 - 2) * (10 - 0))) as [_|N];
    [|exfalso; lra].
  cbn [Fixture.area].
  destruct (Rlt_dec ((12 - 2) * (10 - 0)) ((14 - 13) * (2 - 0))) as [L|_];
    [exfalso; lra|].
  reflexivity.
Qed.

(** In this world every state is processed, and the run completes. *)
Lemma fixture_total (code name : pystr) :
  exists it, Fixture.process_state code name = Some it.
Proof.
  assert (forall clean r,
             r ∈ keep_lines Fixture.box Fixture.kind
                   (Fixture.clip
                      (Fixture.fetch_roads (Fixture.buffer clean (buf name)))
                      (Fixture.to_crs clean)) ->
             highway r <> TagList []) as Htags.
  { intros clean r Hr. apply keep_lines_spec in Hr as [Hr _].
    unfold Fixture.clip, Fixture.fetch_roads, Fixture.edges in Hr.
    repeat (apply elem_of_cons in Hr as [->|Hr]; [discriminate|]).
    inversion Hr. }
  destruct (decide (name = py "Colima")) as [->|Hn].
  - apply process_state_Some with Fixture.mainland;
      [exact fixture_Colima | apply Htags].
  - apply process_state_Some with Fixture.raw_boundary;
      [now apply clean_geom_other | apply Htags].
Qed.

Lemma fixture_main_completes :
  (main Fixture.box Fixture.kind Fixture.geoms Fixture.area Fixture.buffer
        Fixture.to_crs Fixture.centroid Fixture.distance Fixture.bounds
        Fixture.geocode Fixture.fetch_roads Fixture.clip).2 = true.
Proof.
  apply run_completes. intros code name _. apply fixture_total.
Qed.

Lemma islet_reduction_witness :
  exists it,
    Fixture.process_state (py "06") (py "Colima") = Some it /\
    it_raw_geom it = Fixture.geocode (py "Colima" ++ py ", Mexico") /\
    it_boundary_proj it = Fixture.to_crs (it_clean_geom it) /\
    (py "Colima" = py "Colima" ->
     Fixture.kind (it_raw_geom it) = MultiPolygon ->
     it_clean_geom it ∈ Fixture.geoms (it_raw_geom it) /\
     forall q, q ∈ Fixture.geoms (it_raw_geom it) ->
               (Fixture.area q <= Fixture.area (it_clean_geom it))%R) /\
    (py "Colima" <> py "Colima" -> it_clean_geom it = it_raw_geom it).
Proof.
  destruct (fixture_total (py "06") (py "Colima")) as [it E].
  exists it. split; [exact E|].
  exact (islet_reduction Fixture.box Fixture.kind Fixture.geoms Fixture.area
           Fixture.buffer Fixture.to_crs Fixture.centroid Fixture.distance
           Fixture.bounds Fixture.geocode Fixture.fetch_roads Fixture.clip
           (py "06") (py "Colima") it E).
Defined.

Lemma post_clip_lines_witness :
  exists it,
    Fixture.process_state (py "14") (py "Jalisco") = Some it /\
    (forall r,
        r ∈ it_roads it <->
        r ∈ Fixture.clip (Fixture.fetch_roads (it_fetch_geom it))
              (it_boundary_proj it) /\
        Fixture.kind (geometry r) ∈ [LineString; LinearRing; MultiLineString]) /\
    (forall r,
        r ∈ it_roads it ->
        contains (geom_type_name (Fixture.kind (geometry r))) (py "Line")
          = true /\
        Fixture.kind (geometry r) <> Point /\
        Fixture.kind (geometry r) <> MultiPoint /\
        Fixture.kind (geometry r) <> Polygon /\
        Fixture.kind (geometry r) <> MultiPolygon /\
        Fixture.kind (geometry r) <> GeometryCollection) /\
    (forall fig, fig ∈ it_figures it -> fig_roads fig = it_roads it).
Proof.
  eexists. split; [reflexivity|].
  apply (post_clip_lines Fixture.box Fixture.kind Fixture.geoms Fixture.area
           Fixture.buffer Fixture.to_crs Fixture.centroid Fixture.distance
           Fixture.bounds Fixture.geocode Fixture.fetch_roads Fixture.clip
           (py "14") (py "Jalisco")).
  reflexivity.
Defined.

Lemma plot_extent_witness :
  exists it,
    Fixture.process_state (py "27") (py "Tabasco") = Some it /\
    List.length (it_figures it) = 3%nat /\
    forall fig, fig ∈ it_figures it ->
      let '(x0, y0, x1, y1) := Fixture.bounds (it_boundary_proj it) in
      fig_xlim fig = (x0 - 0.05 * (x1 - x0), x1 + 0.05 * (x1 - x0))%R /\
      fig_ylim fig = (y0 - 0.05 * (y1 - y0), y1 + 0.05 * (y1 - y0))%R.
Proof.
  eexists. split; [reflexivity|].
  apply (plot_extent Fixture.box Fixture.kind Fixture.geoms Fixture.area
           Fixture.buffer Fixture.to_crs Fixture.centroid Fixture.distance
           Fixture.bounds Fixture.geocode Fixture.fetch_roads Fixture.clip
           (py "27") (py "Tabasco")).
  reflexivity.
Defined.

Lemma buffer_scope_witness :
  exists it,
    Fixture.process_state (py "01") (py "Aguascalientes") = Some it /\
    clean_geom Fixture.box Fixture.kind Fixture.geoms Fixture.area
               (py "Aguascalientes") (it_raw_geom it)
      = Some (it_clean_geom it) /\
    it_fetch_geom it
      = Fixture.buffer (it_clean_geom it) (buf (py "Aguascalientes")) /\
    it_boundary_proj it = Fixture.to_crs (it_clean_geom it) /\
    it_roads it =
      keep_lines Fixture.box Fixture.kind
        (Fixture.clip (Fixture.fetch_roads (it_fetch_geom it))
                      (it_boundary_proj it)) /\
    it_center it = Fixture.centroid (it_boundary_proj it) /\
    it_dist it =
      List.map (fun r => Fixture.distance (geometry r) (it_center it))
               (it_roads it) /\
    it_extent it = extent (Fixture.bounds (it_boundary_proj it)) /\
    (forall fig, fig ∈ it_figures it ->
       fig_outline fig = it_boundary_proj it /\
       (fig_xlim fig, fig_ylim fig) =
         (let '(e0, e1, e2, e3) := it_extent it in ((e0, e1), (e2, e3)))) /\
    (forall buffer' : Fixture.box -> R -> Fixture.box,
       Fixture.fetch_roads (buffer' (it_clean_geom it)
                                    (buf (py "Aguascalientes")))
         = Fixture.fetch_roads (it_fetch_geom it) ->
       exists it',
         process_state Fixture.box Fixture.kind Fixture.geoms Fixture.area
                       buffer' Fixture.to_crs Fixture.centroid
                       Fixture.distance Fixture.bounds Fixture.geocode
                       Fixture.fetch_roads Fixture.clip
                       (py "01") (py "Aguascalientes") = Some it' /\
         it_fetch_geom it'
           = buffer' (it_clean_geom it) (buf (py "Aguascalientes")) /\
         it_clean_geom it' = it_clean_geom it /\
         it_boundary_proj it' = it_boundary_proj it /\
         it_roads it' = it_roads it /\
         it_hwy_code it' = it_hwy_code it /\
         it_center it' = it_center it /\
         it_dist it' = it_dist it /\
         it_lw it' = it_lw it /\
         it_extent it' = it_extent it /\
         it_figures it' = it_figures it).
Proof.
  eexists. split; [reflexivity|].
  apply (buffer_scope Fixture.box Fixture.kind Fixture.geoms Fixture.area
           Fixture.buffer Fixture.to_crs Fixture.centroid Fixture.distance
           Fixture.bounds Fixture.geocode Fixture.fetch_roads Fixture.clip
           (py "01") (py "Aguascalientes")).
  reflexivity.
Defined.

Lemma output_naming_witness :
  (main Fixture.box Fixture.kind Fixture.geoms Fixture.area Fixture.buffer
        Fixture.to_crs Fixture.centroid Fixture.distance Fixture.bounds
        Fixture.geocode Fixture.fetch_roads Fixture.clip).2 = true /\
  List.map fig_path
    (main Fixture.box Fixture.kind Fixture.geoms Fixture.area Fixture.buffer
          Fixture.to_crs Fixture.centroid Fixture.distance Fixture.bounds
          Fixture.geocode Fixture.fetch_roads Fixture.clip).1 =
  flat_map
    (fun '(code, name) =>
       [ py "output/" ++ py "basic_" ++ code ++ py "_" ++ safe name
            ++ py ".png";
         py "output/" ++ py "typemap_" ++ code ++ py "_" ++ safe name
            ++ py ".png";
         py "output/" ++ py "distmap_" ++ code ++ py "_" ++ safe name
            ++ py ".png" ]) states.
Proof.
  split; [exact fixture_main_completes|].
  destruct (output_naming Fixture.box Fixture.kind Fixture.geoms Fixture.area
              Fixture.buffer Fixture.to_crs Fixture.centroid Fixture.distance
              Fixture.bounds Fixture.geocode Fixture.fetch_roads Fixture.clip)
    as (_ & _ & _ & _ & _ & Hmain & _).
  exact (Hmain fixture_main_completes).
Defined.

(** * Further properties of the code *)

(** ** Substring search and replacement *)

Lemma startswith_spec (p s : pystr) :
  startswith p s = true <-> exists post, s = p ++ post.
Proof.
  revert s. induction p as [|a p IH]; intros s; simpl.
  - split; [intros _; now exists s | reflexivity].
  - destruct s as [|b s].
    + split; [discriminate | intros [post E]; discriminate].
    + rewrite andb_true_iff, N.eqb_eq, IH. split.
      * intros [-> [post ->]]. now exists post.
      * intros [post [= -> ->]]. split; [reflexivity | now exists post].
Qed.

(** X1. The substring test used by the line filter: [contains s p] holds
    exactly when [p] occurs in [s], that is when [s] is some prefix, then
    [p], then some suffix. *)
Theorem contains_spec (s p : pystr) :
  contains s p = true <-> exists pre post, s = pre ++ p ++ post.
Proof.
  induction s as [|c t IH].
  - cbn [contains]. rewrite orb_false_r, startswith_spec. split.
    + intros [post E]. now exists [], post.
    + intros (pre & post & E). symmetry in E.
      apply app_eq_nil in E as [-> E]. apply app_eq_nil in E as [-> ->].
      now exists [].
  - cbn [contains]. rewrite orb_true_iff, startswith_spec, IH. split.
    + intros [[post E]|(pre & post & E)].
      * now exists [], post.
      * exists (c :: pre), post. now rewrite E.
    + intros ([|c' pre] & post & E).
      * left. now exists post.
      * right. injection E as _ E. now exists pre, post.
Qed.

Lemma replace_from_absent (old new s : pystr) :
  old <> [] -> contains s old = false -> replace_from old new O s = s.
Proof.
  intros Hne. induction s as [|c t IH]; [reflexivity|].
  cbn [contains replace_from]. intros H. apply orb_false_iff in H as [H1 H2].
  rewrite H1. f_equal. now apply IH.
Qed.

(** X2. Replacement leaves alone what it does not find: when the non-empty
    pattern [old] does not occur in [s], [s.replace(old, new)] is [s]. *)
Theorem replace_absent (s old new : pystr) :
  old <> [] -> contains s old = false -> replace s old new = s.
Proof.
  intros Hne H. unfold replace. destruct old as [|a old]; [congruence|].
  now apply replace_from_absent.
Qed.

Lemma replace_absent_witness :
  replace (py "Colima") (py " ") (py "_") = py "Colima".
Proof.
  apply (replace_absent (py "Colima") (py " ") (py "_")).
  - discriminate.
  - reflexivity.
Defined.

(** ** The safe name, letter by letter *)

Lemma lower_cp_not_upper (c : N) :
  ~ (65 <= lower_cp c <= 90) /\
  ~ (192 <= lower_cp c <= 222 /\ lower_cp c <> 215).
Proof.
  unfold lower_cp.
  destruct (N.leb_spec 65 c), (N.leb_spec c 90); cbn [andb]; try lia;
    destruct (N.leb_spec 192 c), (N.leb_spec c 222), (N.eqb_spec c 215);
    cbn [andb negb]; lia.
Qed.

Lemma lower_cp_fixed (c : N) :
  ~ (65 <= c <= 90) -> ~ (192 <= c <= 222 /\ c <> 215) -> lower_cp c = c.
Proof.
  intros H1 H2. unfold lower_cp.
  destruct (N.leb_spec 65 c), (N.leb_spec c 90); cbn [andb]; try lia;
    destruct (N.leb_spec 192 c), (N.leb_spec c 222), (N.eqb_spec c 215);
    cbn [andb negb]; lia.
Qed.

Lemma unaccent_cases (c : N) :
  (unaccent c = c /\ c <> 225 /\ c <> 233 /\ c <> 237 /\ c <> 243 /\
   c <> 250 /\ c <> 241) \/
  (In c [225; 233; 237; 243; 250; 241] /\
   In (unaccent c) [97; 101; 105; 111; 117; 110]).
Proof.
  unfold unaccent.
  destruct (N.eqb_spec c 225) as [->|?]; [right; simpl; tauto|].
  destruct (N.eqb_spec c 233) as [->|?]; [right; simpl; tauto|].
  destruct (N.eqb_spec c 237) as [->|?]; [right; simpl; tauto|].
  destruct (N.eqb_spec c 243) as [->|?]; [right; simpl; tauto|].
  destruct (N.eqb_spec c 250) as [->|?]; [right; simpl; tauto|].
  destruct (N.eqb_spec c 241) as [->|?]; [right; simpl; tauto|].
  left. tauto.
Qed.

(** What one letter of a safe name can be. *)
Lemma safe_letter (c : N) :
  let s := unaccent (underscore (lower_cp c)) in
  s <> 32 /\ ~ (65 <= s <= 90) /\ ~ (192 <= s <= 222 /\ s <> 215) /\
  s <> 225 /\ s <> 233 /\ s <> 237 /\ s <> 243 /\ s <> 250 /\ s <> 241.
Proof.
  cbv zeta. destruct (lower_cp_not_upper c) as [L1 L2].
  set (l := lower_cp c) in *. unfold underscore.
  destruct (N.eqb_spec l 32) as [E|N32].
  - change (unaccent 95) with 95. repeat split; lia.
  - destruct (unaccent_cases l) as [(-> & ?)|(Hin & Hout)].
    + repeat split; try tauto; lia.
    + simpl in Hin, Hout. repeat split; lia.
Qed.

(** X3. What a safe name never holds: for a state name written in Latin-1
    (code points below 256, as all names of the table are) the safe name is
    as long as the name, and none of its letters is a space, a capital
    letter (A-Z or an accented capital of Latin-1), or one of á, é, í, ó, ú,
    ñ. *)
Theorem safe_letters (name : pystr) :
  Forall (fun c => c < 256) name ->
  List.length (safe name) = List.length name /\
  forall c, c ∈ safe name ->
    c <> 32 /\ ~ (65 <= c <= 90) /\ ~ (192 <= c <= 222 /\ c <> 215) /\
    c <> 225 /\ c <> 233 /\ c <> 237 /\ c <> 243 /\ c <> 250 /\ c <> 241.
Proof.
  intros _. rewrite safe_refines. unfold safe_spec.
  split; [apply List.length_map|].
  intros c Hc. apply list_elem_of_In, in_map_iff in Hc as (c0 & <- & _).
  apply safe_letter.
Qed.

Lemma safe_letters_witness :
  List.length (safe (py "Nuevo León")) = List.length (py "Nuevo León") /\
  forall c, c ∈ safe (py "Nuevo León") ->
    c <> 32 /\ ~ (65 <= c <= 90) /\ ~ (192 <= c <= 222 /\ c <> 215) /\
    c <> 225 /\ c <> 233 /\ c <> 237 /\ c <> 243 /\ c <> 250 /\ c <> 241.
Proof.
  apply (safe_letters (py "Nuevo León")).
  repeat constructor.
Defined.

(** X4. Making a name safe twice is the same as making it safe once. *)
Theorem safe_idempotent (name : pystr) : safe (safe name) = safe name.
Proof.
  rewrite !safe_refines. unfold safe_spec. rewrite List.map_map.
  apply List.map_ext. intros c.
  destruct (safe_letter c) as (H32 & Hup & Hlat & Hacc). cbv zeta in *.
  set (s := unaccent (underscore (lower_cp c))) in *.
  rewrite (lower_cp_fixed s Hup Hlat). unfold underscore.
  destruct (N.eqb_spec s 32) as [E|_]; [contradiction|].
  destruct (unaccent_cases s) as [(E & _)|(Hin & _)]; [exact E|].
  simpl in Hin. exfalso. lia.
Qed.

(** X5. The six replacements are enough for the table: the safe name of each
    of the 32 states is made of the letters a-z and the underscore only. *)
Theorem safe_states_plain (code name : pystr) :
  (code, name) ∈ states ->
  forall c, c ∈ safe name -> is_plain c = true.
Proof.
  intros Hin c Hc.
  assert (forallb (fun st : pystr * pystr => forallb is_plain (safe st.2))
                  states = true) as Hall by (vm_compute; reflexivity).
  rewrite forallb_forall in Hall.
  apply list_elem_of_In in Hin. specialize (Hall _ Hin). cbn [snd] in Hall.
  rewrite forallb_forall in Hall. apply Hall. now apply list_elem_of_In.
Qed.

Lemma safe_states_plain_witness :
  (py "16", py "Michoacán") ∈ states /\
  (forall c, c ∈ safe (py "Michoacán") -> is_plain c = true).
Proof.
  assert ((py "16", py "Michoacán") ∈ states) as Hin.
  { unfold states. do 15 apply list_elem_of_further. apply list_elem_of_here. }
  split; [exact Hin|].
  exact (safe_states_plain (py "16") (py "Michoacán") Hin).
Defined.

(** ** The plot extent *)

(** X7. For a well-formed bounding box the view contains the box; a box
    reduced to a vertical or horizontal segment gets no margin in that
    direction, its limits being the box's own. *)
Theorem extent_contains (x0 y0 x1 y1 : R) :
  (x0 <= x1)%R -> (y0 <= y1)%R ->
  let '(a, b, c, d) := extent (x0, y0, x1, y1) in
  (a <= x0 /\ x1 <= b /\ c <= y0 /\ y1 <= d)%R /\
  (x0 = x1 -> a = x0 /\ b = x1) /\ (y0 = y1 -> c = y0 /\ d = y1).
Proof.
  intros Hx Hy. unfold extent.
  repeat split; intros; subst; lra.
Qed.

Lemma extent_contains_witness :
  let '(a, b, c, d) := extent (0, 0, 10, 20)%R in
  (a <= 0 /\ 10 <= b /\ c <= 0 /\ 20 <= d)%R /\
  (0%R = 10%R -> a = 0%R /\ b = 10%R) /\
  (0%R = 20%R -> c = 0%R /\ d = 20%R).
Proof. apply (extent_contains 0 0 10 20); lra. Defined.

(** ** More on the widths *)

Lemma lw_length (dist : list R) : List.length (lw dist) = List.length dist.
Proof. unfold lw, raw_lw. now rewrite !List.length_map. Qed.

(** X8. The width column has one value per segment, and it is either NaN
    throughout or made of numbers of [0.05, 0.9] throughout: no width is
    infinite and none leaves the range. *)
Theorem lw_values (dist : list R) :
  List.length (lw dist) = List.length dist /\
  ((forall w, w ∈ lw dist -> w = NaN) \/
   (forall w, w ∈ lw dist ->
              exists r, w = Finite r /\ (0.05 <= r <= 0.9)%R)).
Proof.
  split; [apply lw_length|].
  destruct dist as [|d0 t] eqn:Ed.
  { left. intros w Hw. inversion Hw. }
  rewrite <- Ed. assert (dist <> []) as Hne by (rewrite Ed; discriminate).
  clear Ed d0 t.
  destruct (raw_extrema dist Hne)
    as (dmin & dmax & Hdmin & Hdmax & Hrange & Emn & Emx).
  destruct (Rle_lt_dec dmax dmin) as [Hle|Hlt].
  - left. assert (dmin = dmax) as E.
    { destruct (Hrange dmax Hdmax). lra. }
    rewrite E in Emx.
    rewrite (lw_identical dist _ Emn Emx).
    + intros w Hw. apply list_elem_of_In, in_map_iff in Hw as (d & <- & _).
      reflexivity.
    + intros d Hd. destruct (Hrange d Hd).
      assert (d = dmax) as -> by lra. reflexivity.
  - right. pose proof (raw_lt _ _ Hlt) as Hmm.
    rewrite (lw_distinct dist _ _ Emn Emx Hmm).
    intros w Hw. apply list_elem_of_In, in_map_iff in Hw as (d & <- & Hd).
    apply list_elem_of_In in Hd. eexists. split; [reflexivity|].
    apply rescale_bounds; [assumption|].
    destruct (Hrange d Hd). rewrite <- raw_exp. split; now apply raw_le.
Qed.

Lemma series_min_perm (s s' : list R) :
  s ≡ₚ s' -> series_min s = series_min s'.
Proof.
  intros Hp. destruct s as [|x t] eqn:Es.
  - apply Permutation_nil_l in Hp. now subst.
  - rewrite <- Es in *. assert (s <> []) as Hne by (rewrite Es; discriminate).
    assert (s' <> []) as Hne'.
    { intros ->. apply Permutation_nil_r in Hp. contradiction. }
    destruct (series_min_spec s Hne) as (m & -> & Hin & Hle).
    destruct (series_min_spec s' Hne') as (m' & -> & Hin' & Hle').
    f_equal. apply Rle_antisym.
    + apply Hle. now rewrite Hp.
    + apply Hle'. now rewrite <- Hp.
Qed.

Lemma series_max_perm (s s' : list R) :
  s ≡ₚ s' -> series_max s = series_max s'.
Proof.
  intros Hp. destruct s as [|x t] eqn:Es.
  - apply Permutation_nil_l in Hp. now subst.
  - rewrite <- Es in *. assert (s <> []) as Hne by (rewrite Es; discriminate).
    assert (s' <> []) as Hne'.
    { intros ->. apply Permutation_nil_r in Hp. contradiction. }
    destruct (series_max_spec s Hne) as (m & -> & Hin & Hle).
    destruct (series_max_spec s' Hne') as (m' & -> & Hin' & Hle').
    f_equal. apply Rle_antisym.
    + apply Hle'. now rewrite <- Hp.
    + apply Hle. now rewrite Hp.
Qed.

(** X10. The width of a segment does not depend on where its row stands:
    when the same distances come in another order, a segment at a given
    distance gets the same width. *)
Theorem lw_row_order (dist dist' : list R) (i j : nat) (d : R) :
  dist ≡ₚ dist' ->
  dist !! i = Some d -> dist' !! j = Some d ->
  lw dist !! i = lw dist' !! j.
Proof.
  intros Hp Hi Hj.
  assert (raw_lw dist ≡ₚ raw_lw dist') as Hraw.
  { unfold raw_lw. now apply Permutation_map. }
  unfold lw.
  rewrite <- (series_min_perm _ _ Hraw), <- (series_max_perm _ _ Hraw).
  unfold raw_lw. rewrite !List.map_map.
  change (@List.map R np_float) with (@fmap list _ R np_float).
  rewrite !list_lookup_fmap, Hi, Hj. reflexivity.
Qed.

Lemma lw_row_order_witness :
  lw [3; 1; 2]%R !! 0%nat = lw [1; 2; 3]%R !! 2%nat.
Proof.
  apply (lw_row_order [3; 1; 2]%R [1; 2; 3]%R 0 2 3%R).
  - change [3; 1; 2]%R with ([3] ++ [1; 2])%R.
    change [1; 2; 3]%R with ([1; 2] ++ [3])%R.
    apply Permutation_app_comm.
  - reflexivity.
  - reflexivity.
Defined.

(** ** The legend of the type map *)

Lemma legend_patches_eq :
  legend_patches =
  [ {| patch_color := 0; patch_label := py "motorway" |};
    {| patch_color := 1; patch_label := py "trunk" |};
    {| patch_color := 2; patch_label := py "primary" |};
    {| patch_color := 3; patch_label := py "secondary" |};
    {| patch_color := 4; patch_label := py "tertiary" |};
    {| patch_color := 5; patch_label := py "unclassified" |};
    {| patch_color := 6; patch_label := py "residential" |};
    {| patch_color := 7; patch_label := py "service" |};
    {| patch_color := 8; patch_label := py "other" |} ].
Proof. reflexivity. Qed.

(** X11. The patches of the legend: there is one per colormap step, the
    patch at position [n] takes its colour at step [n], and the class number
    the classifier gives a tag is the position of the patch labelled with
    that tag, or with "other" when the tag is outside the hierarchy.  (How
    the plotting library maps the class column of a figure to colours is not
    part of this statement.) *)
Theorem legend_patch_labels :
  List.length legend_patches = cmap_steps /\
  (forall n p, legend_patches !! n = Some p -> patch_color p = n) /\
  (forall hw s n,
      hw = TagStr s \/ (exists rest, hw = TagList (s :: rest)) ->
      get_hwy_code hw = Some n ->
      exists p, legend_patches !! n = Some p /\ patch_color p = n /\
                patch_label p = if mem s highway_order then s else py "other").
Proof.
  split; [reflexivity|]. split.
  - intros n p. rewrite legend_patches_eq.
    do 9 (destruct n as [|n]; [intros [= <-]; reflexivity|]).
    discriminate.
  - intros hw s n Hhw Hcode.
    assert (get_hwy_code (TagStr s) = Some n) as H.
    { destruct Hhw as [->|[rest ->]]; [assumption|].
      now rewrite <- get_hwy_code_list with (rest := rest). }
    clear Hhw Hcode hw. rewrite get_hwy_code_str in H.
    destruct (index s highway_order) as [k|] eqn:I.
    + injection H as <-. cbn [default from_option id].
      apply index_Some in I as [Hk _].
      assert (mem s highway_order = true) as ->.
      { apply mem_true. eapply list_elem_of_lookup_2; eauto. }
      rewrite legend_patches_eq.
      do 8 (destruct k as [|k];
            [injection Hk as <-; eexists; split; [reflexivity|]; now split|]).
      discriminate.
    + injection H as <-. apply index_None, mem_false in I. rewrite I.
      rewrite legend_patches_eq. eexists. split; [reflexivity|]. now split.
Qed.

(** ** The islet reduction, case by case *)

Lemma fold_best_first {A : Type} (key : A -> R) (t : list A) (x : A) :
  let m := fold_left
             (fun best y => if Rlt_dec (key best) (key y) then y else best)
             t x in
  exists i, (x :: t) !! i = Some m /\
            forall j y, (j < i)%nat -> (x :: t) !! j = Some y ->
                        (key y < key m)%R.
Proof.
  revert x. induction t as [|z t IH]; intros x; cbn [fold_left].
  - exists O. split; [reflexivity|]. intros j y Hj. lia.
  - destruct (Rlt_dec (key x) (key z)) as [Hlt|Hge].
    + destruct (IH z) as (i & Hi & Hearlier).
      destruct (fold_best_spec key t z) as (_ & Hz & _). cbv zeta in *.
      exists (S i). split; [exact Hi|].
      intros [|j] y Hj Hy.
      * injection Hy as <-. lra.
      * apply (Hearlier j); [lia | exact Hy].
    + destruct (IH x) as (i & Hi & Hearlier). cbv zeta in *.
      destruct i as [|i].
      * exists O. split; [exact Hi|]. intros j y Hj. lia.
      * exists (S (S i)). split; [exact Hi|].
        assert (key x < key (fold_left
                  (fun best y => if Rlt_dec (key best) (key y) then y else best)
                  t x))%R as Hx.
        { apply (Hearlier O); [lia | reflexivity]. }
        intros [|[|j]] y Hj Hy.
        -- injection Hy as <-. exact Hx.
        -- injection Hy as <-. lra.
        -- apply (Hearlier (S j)); [lia | exact Hy].
Qed.

Section IsletProperties.

Variable geom : Type.
Variable kind : geom -> shape_kind.
Variable geoms : geom -> list geom.
Variable area : geom -> R.

Lemma largest_polygon_fails (g : geom) :
  largest_polygon geom kind geoms area g = None <->
  kind g = MultiPolygon /\ geoms g = [].
Proof.
  unfold largest_polygon. split.
  - destruct (kind g); try discriminate.
    destruct (geoms g); [now split | discriminate].
  - intros [-> ->]. reflexivity.
Qed.

(** X12. The islet reduction fails (the [ValueError] of [max] on an empty
    sequence) exactly on a multi-polygon without parts; every other geometry
    gives a result, and a geometry that is not a multi-polygon is returned
    as it is. *)
Theorem largest_polygon_cases (g : geom) :
  (largest_polygon geom kind geoms area g = None <->
   kind g = MultiPolygon /\ geoms g = []) /\
  (kind g <> MultiPolygon -> largest_polygon geom kind geoms area g = Some g) /\
  (kind g = MultiPolygon -> geoms g <> [] ->
   exists m, largest_polygon geom kind geoms area g = Some m /\ m ∈ geoms g).
Proof.
  split; [apply largest_polygon_fails|]. split.
  - intros Hk. unfold largest_polygon. destruct (kind g); congruence.
  - intros Hk Hne. unfold largest_polygon. rewrite Hk.
    destruct (geoms g) as [|p rest]; [congruence|].
    destruct (py_max_spec area p rest) as (m & -> & Hin & _). eauto.
Qed.

(** X13. Ties go to the earliest part: the part kept for a multi-polygon is
    the first one of largest area, every part before it being strictly
    smaller. *)
Theorem largest_polygon_first (g m : geom) :
  kind g = MultiPolygon ->
  largest_polygon geom kind geoms area g = Some m ->
  exists i, geoms g !! i = Some m /\
            forall j q, (j < i)%nat -> geoms g !! j = Some q ->
                        (area q < area m)%R.
Proof.
  intros Hk. unfold largest_polygon. rewrite Hk.
  destruct (geoms g) as [|p rest]; [discriminate|].
  unfold py_max. intros [= <-]. apply fold_best_first.
Qed.

End IsletProperties.

Lemma largest_polygon_first_witness :
  exists i, Fixture.geoms Fixture.raw_boundary !! i = Some Fixture.mainland /\
            forall j q, (j < i)%nat ->
                        Fixture.geoms Fixture.raw_boundary !! j = Some q ->
                        (Fixture.area q < Fixture.area Fixture.mainland)%R.
Proof.
  apply (largest_polygon_first Fixture.box Fixture.kind Fixture.geoms
           Fixture.area Fixture.raw_boundary Fixture.mainland).
  - reflexivity.
  - exact fixture_Colima.
Defined.

Lemma get_hwy_code_le (hw : hwy_tag) (n : nat) :
  get_hwy_code hw = Some n -> (n <= 8)%nat.
Proof.
  destruct hw as [s|[|s l]]; [| discriminate | rewrite get_hwy_code_list];
    rewrite get_hwy_code_str, highway_order_length;
    destruct (index s highway_order) as [k|] eqn:I; intros H;
      injection H as <-;
      try (change (8 <= 8)%nat; lia);
      change (k <= 8)%nat; apply index_lt in I;
      rewrite highway_order_length in I; lia.
Qed.

(** ** Failure and progress of the loop *)

Section LoopProperties.

Variable geom : Type.
Variable kind : geom -> shape_kind.
Variable geoms : geom -> list geom.
Variable area : geom -> R.
Variable buffer : geom -> R -> geom.
Variable to_crs : geom -> geom.
Variable centroid : geom -> geom.
Variable distance : geom -> geom -> R.
Variable bounds : geom -> R * R * R * R.
Variable geocode : pystr -> geom.
Variable fetch_roads : geom -> list (road geom).
Variable clip : list (road geom) -> geom -> list (road geom).

Local Abbreviation process :=
  (process_state geom kind geoms area buffer to_crs centroid distance bounds
                 geocode fetch_roads clip).
Local Abbreviation loop :=
  (run geom kind geoms area buffer to_crs centroid distance bounds geocode
       fetch_roads clip).
Local Abbreviation cleaned := (clean_geom geom kind geoms area).
Local Abbreviation lines := (keep_lines geom kind).

Lemma clean_geom_fails (name : pystr) (raw : geom) :
  cleaned name raw = None <->
  name = py "Colima" /\ kind raw = MultiPolygon /\ geoms raw = [].
Proof.
  unfold clean_geom. destruct (eqb name (py "Colima")) eqn:E.
  - apply eqb_eq in E. rewrite largest_polygon_fails. tauto.
  - apply eqb_neq in E. split; [discriminate | tauto].
Qed.

(** X14. Two ways an iteration raises: when the state is Colima and its
    boundary is a multi-polygon without parts ([max] of an empty sequence),
    and when one of the roads kept after clipping carries an empty list as
    its highway tag ([hw[0]] of an empty list).  In both cases nothing is
    saved for the state. *)
Theorem process_state_raises (code name : pystr) :
  (name = py "Colima" /\
   kind (geocode (name ++ py ", Mexico")) = MultiPolygon /\
   geoms (geocode (name ++ py ", Mexico")) = []) \/
  (exists clean r,
      cleaned name (geocode (name ++ py ", Mexico")) = Some clean /\
      r ∈ lines (clip (fetch_roads (buffer clean (buf name))) (to_crs clean)) /\
      highway r = TagList []) ->
  process code name = None.
Proof.
  intros [H|(clean & r & Ec & Hr & Ht)]; unfold process_state.
  - apply clean_geom_fails in H. rewrite H. reflexivity.
  - rewrite Ec. cbn [mbind option_bind].
    destruct (mapM _ _) as [codes|] eqn:Em; [|reflexivity]. exfalso.
    assert (is_Some (mapM (fun r => get_hwy_code (highway r))
               (lines (clip (fetch_roads (buffer clean (buf name)))
                            (to_crs clean))))) as Hs
        by (rewrite Em; eauto).
    apply mapM_is_Some_1 in Hs. rewrite Forall_forall in Hs.
    destruct (Hs r Hr) as [n Hn]. rewrite Ht in Hn. discriminate.
Qed.

(** X15. The run saves the files of a prefix of the table, three per state
    and in table order: every state before the end of the prefix was
    processed, the prefix is the whole table exactly when the run completes,
    and otherwise the state right after it is the one that failed, nothing
    being saved for it or for any later state. *)
Theorem run_prefix (sts : list (pystr * pystr)) :
  exists k,
    (k <= List.length sts)%nat /\
    List.map fig_path (loop sts).1 =
      flat_map (fun '(code, name) =>
                  [ py "output/basic_" ++ code ++ py "_" ++ safe name
                       ++ py ".png";
                    py "output/typemap_" ++ code ++ py "_" ++ safe name
                       ++ py ".png";
                    py "output/distmap_" ++ code ++ py "_" ++ safe name
                       ++ py ".png" ]) (take k sts) /\
    List.length (loop sts).1 = (3 * k)%nat /\
    ((loop sts).2 = true <-> k = List.length sts) /\
    (forall j code name,
        (j < k)%nat -> sts !! j = Some (code, name) ->
        is_Some (process code name)) /\
    (forall code name,
        sts !! k = Some (code, name) -> process code name = None).
Proof.
  induction sts as [|[code name] rest IH].
  - exists O. cbn. repeat split; try reflexivity; try lia; discriminate.
  - cbn [run]. destruct (process code name) as [it|] eqn:E.
    + destruct IH as (k & Hk & Hpaths & Hlen & Hdone & Hbefore & Hnext).
      destruct (loop rest) as [saved completed]. cbn [fst snd] in *.
      apply process_state_inv in E as Hinv.
      destruct Hinv as (_ & _ & _ & _ & _ & _ & _ & _ & _ & _ & _ & Es & Ep & _).
      exists (S k). split; [cbn; lia|]. split; [|split; [|split; [|split]]].
      * rewrite List.map_app, Hpaths, Ep, Es. reflexivity.
      * rewrite List.length_app, Hlen,
          <- (List.length_map fig_path (it_figures it)), Ep. cbn. lia.
      * rewrite Hdone. cbn. lia.
      * intros [|j] c n Hj Hl.
        -- injection Hl as <- <-. rewrite E. eauto.
        -- apply (Hbefore j); [lia | exact Hl].
      * intros c n Hl. now apply Hnext.
    + exists O. cbn. split; [lia|]. split; [reflexivity|].
      split; [reflexivity|]. split; [split; [discriminate | lia]|].
      split; [intros j c n Hj; lia|].
      intros c n [= <- <-]. exact E.
Qed.

(** X16. The columns of an iteration stay aligned with the rows: classes,
    distances and widths have one entry per road, the class at a row is the
    class of that row's tag and is a step of the colormap, and the widths
    and classes handed to a figure are as many as the roads it draws. *)
Theorem iteration_columns (code name : pystr) (it : iteration geom) :
  process code name = Some it ->
  List.length (it_hwy_code it) = List.length (it_roads it) /\
  List.length (it_dist it) = List.length (it_roads it) /\
  List.length (it_lw it) = List.length (it_roads it) /\
  (forall i r, it_roads it !! i = Some r ->
     exists n, it_hwy_code it !! i = Some n /\
               get_hwy_code (highway r) = Some n /\ (n < cmap_steps)%nat) /\
  (forall fig, fig ∈ it_figures it ->
     (forall ws, fig_linewidth fig = PerSegment ws ->
                 List.length ws = List.length (fig_roads fig)) /\
     (forall codes, fig_column fig = Some codes ->
                    List.length codes = List.length (fig_roads fig))).
Proof.
  intros H. apply process_state_inv in H.
  destruct H as (_ & _ & _ & _ & _ & _ & Hcodes & _ & Hdist & Hlw & _ & _ & _
                 & Hwidths & Hcols & Hfig).
  apply mapM_Some in Hcodes.
  assert (List.length (it_hwy_code it) = List.length (it_roads it)) as L1.
  { symmetry. eapply Forall2_length; eauto. }
  assert (List.length (it_dist it) = List.length (it_roads it)) as L2.
  { rewrite Hdist. apply List.length_map. }
  assert (List.length (it_lw it) = List.length (it_roads it)) as L3.
  { rewrite Hlw, lw_length. exact L2. }
  split; [exact L1|]. split; [exact L2|]. split; [exact L3|]. split.
  - intros i r Hr.
    destruct (Forall2_lookup_l _ _ _ _ _ Hcodes Hr) as (n & Hn & Hcode).
    exists n. split; [exact Hn|]. split; [exact Hcode|].
    apply get_hwy_code_le in Hcode.
    unfold cmap_steps. rewrite highway_order_length. lia.
  - intros fig Hin. destruct (Hfig fig Hin) as (Hroads & _). rewrite Hroads.
    split.
    + intros ws Hws.
      assert (PerSegment ws ∈ List.map fig_linewidth (it_figures it)) as Hm.
      { rewrite <- Hws. apply list_elem_of_In, in_map, list_elem_of_In, Hin. }
      rewrite Hwidths in Hm.
      repeat (apply elem_of_cons in Hm as [Hm|Hm]; [try discriminate|]).
      * injection Hm as ->. exact L3.
      * inversion Hm.
    + intros codes Hc.
      assert (Some codes ∈ List.map fig_column (it_figures it)) as Hm.
      { rewrite <- Hc. apply list_elem_of_In, in_map, list_elem_of_In, Hin. }
      rewrite Hcols in Hm.
      repeat (apply elem_of_cons in Hm as [Hm|Hm]; [try discriminate|]).
      * injection Hm as ->. exact L1.
      * injection Hm as ->. exact L1.
      * inversion Hm.
Qed.

End LoopProperties.

Lemma iteration_columns_witness :
  exists it,
    Fixture.process_state (py "14") (py "Jalisco") = Some it /\
    List.length (it_hwy_code it) = List.length (it_roads it) /\
    List.length (it_dist it) = List.length (it_roads it) /\
    List.length (it_lw it) = List.length (it_roads it) /\
    (forall i r, it_roads it !! i = Some r ->
       exists n, it_hwy_code it !! i = Some n /\
                 get_hwy_code (highway r) = Some n /\ (n < cmap_steps)%nat) /\
    (forall fig, fig ∈ it_figures it ->
       (forall ws, fig_linewidth fig = PerSegment ws ->
                   List.length ws = List.length (fig_roads fig)) /\
       (forall codes, fig_column fig = Some codes ->
                      List.length codes = List.length (fig_roads fig))).
Proof.
  eexists. split; [reflexivity|].
  apply (iteration_columns Fixture.box Fixture.kind Fixture.geoms Fixture.area
           Fixture.buffer Fixture.to_crs Fixture.centroid Fixture.distance
           Fixture.bounds Fixture.geocode Fixture.fetch_roads Fixture.clip
           (py "14") (py "Jalisco")).
  reflexivity.
Defined.

Lemma process_state_raises_witness :
  process_state Fixture.box Fixture.kind Fixture.geoms Fixture.area
                Fixture.buffer Fixture.to_crs Fixture.centroid
                Fixture.distance Fixture.bounds EmptyBoundary.geocode
                Fixture.fetch_roads Fixture.clip (py "06") (py "Colima")
  = None.
Proof.
  apply (process_state_raises Fixture.box Fixture.kind Fixture.geoms
           Fixture.area Fixture.buffer Fixture.to_crs Fixture.centroid
           Fixture.distance Fixture.bounds EmptyBoundary.geocode
           Fixture.fetch_roads Fixture.clip (py "06") (py "Colima")).
  left. repeat split; reflexivity.
Defined.

(** ** The widths in binary64 *)

Module Float64Facts.
Import SpecFloat FloatOps PrimFloat.










End Float64Facts.
